(** * find_unclosed_backtick.py: a backtick parity scanner

    A shallow embedding of [find_unclosed_backtick] and the properties of
    its printed output.  The script opens a file as UTF-8 text, reads all
    its lines, walks every character of every line with one cumulative
    counter, and prints one message per backtick, one warning per line that
    ends on an odd count, and a two-call summary.

    Python values are modelled as follows: a [str] is a list of Unicode
    code points, an [int] is a [nat] (the counter and the positions never
    go below zero), the bytes of a file are a [list byte], and the text sent
    to standard output is a [string].  The loops run in a small state monad
    over the counter and the output written so far. *)

From Stdlib Require Import List Arith PeanoNat NArith Bool Lia Sorted.
From Stdlib Require Import Ascii String DecimalString DecimalNat.
From Stdlib.Strings Require Import Byte.
Import ListNotations.

(** ** Text as Python sees it *)

Definition codepoint := N.
Definition str := list codepoint.

(** The three characters the program and the text layer care about. *)
Definition backtick : codepoint := 96%N.   (* '`', U+0060 *)
Definition LF : codepoint := 10%N.         (* '\n' *)
Definition CR : codepoint := 13%N.         (* '\r' *)

(** ** The text layer under [open(filename, 'r', encoding='utf-8')] *)

Module TextIO.

Definition path := string.

(** A file system maps a path to the bytes stored there; [None] is a path
    that cannot be opened for reading. *)
Definition filesystem := path -> option (list byte).

Inductive exception : Type :=
| OSError              (* raised by [open] *)
| UnicodeDecodeError.  (* raised by [readlines] *)

Definition between (lo hi b : N) : bool := ((lo <=? b) && (b <=? hi))%N.
Definition continuation (b : N) : bool := between 0x80 0xBF b.
Definition payload (b : N) : N := (b - 0x80)%N.

(** Bounds of the second byte of a three-byte and of a four-byte
    sequence: no overlong forms, no surrogates, nothing above U+10FFFF. *)
Definition second3 (b0 b1 : N) : bool :=
  if (b0 =? 0xE0)%N then between 0xA0 0xBF b1
  else if (b0 =? 0xED)%N then between 0x80 0x9F b1
  else continuation b1.
Definition second4 (b0 b1 : N) : bool :=
  if (b0 =? 0xF0)%N then between 0x90 0xBF b1
  else if (b0 =? 0xF4)%N then between 0x80 0x8F b1
  else continuation b1.

(** Strict UTF-8 decoding of a sequence of byte values. *)
Fixpoint utf8_decode (bs : list N) : option str :=
  match bs with
  | [] => Some []
  | b0 :: r0 =>
      if (b0 <? 0x80)%N then
        option_map (cons b0) (utf8_decode r0)
      else if between 0xC2 0xDF b0 then
        match r0 with
        | b1 :: r1 =>
            if continuation b1
            then option_map (cons ((b0 - 0xC0) * 64 + payload b1)%N)
                            (utf8_decode r1)
            else None
        | _ => None
        end
      else if between 0xE0 0xEF b0 then
        match r0 with
        | b1 :: b2 :: r2 =>
            if second3 b0 b1 && continuation b2
            then option_map
                   (cons ((b0 - 0xE0) * 4096 + payload b1 * 64 + payload b2)%N)
                   (utf8_decode r2)
            else None
        | _ => None
        end
      else if between 0xF0 0xF4 b0 then
        match r0 with
        | b1 :: b2 :: b3 :: r3 =>
            if second4 b0 b1 && continuation b2 && continuation b3
            then option_map
                   (cons ((b0 - 0xF0) * 262144 + payload b1 * 4096
                          + payload b2 * 64 + payload b3)%N)
                   (utf8_decode r3)
            else None
        | _ => None
        end
      else None
  end.

Definition decode (bytes : list byte) : option str :=
  utf8_decode (map Byte.to_N bytes).

(** Universal newlines, the default of [open] in text mode: "\r\n" and a
    lone "\r" are both read as "\n". *)
Fixpoint translate_newlines (text : str) : str :=
  match text with
  | [] => []
  | c :: rest =>
      if (c =? CR)%N then
        match rest with
        | c' :: rest' =>
            if (c' =? LF)%N then LF :: translate_newlines rest'
            else LF :: translate_newlines rest
        | [] => [LF]
        end
      else c :: translate_newlines rest
  end.

(** Cut a text after every "\n"; the "\n" stays at the end of its line,
    and a last line without one is kept as it is. *)
Fixpoint split_keepends (text : str) : list str :=
  match text with
  | [] => []
  | c :: rest =>
      if (c =? LF)%N then [c] :: split_keepends rest
      else match split_keepends rest with
           | [] => [[c]]
           | line :: lines => (c :: line) :: lines
           end
  end.

(** [f.readlines()] on the decoded text of a file. *)
Definition readlines (text : str) : list str :=
  split_keepends (translate_newlines text).

(** [with open(filename, 'r', encoding='utf-8') as f: lines = f.readlines()] *)
Definition open_readlines (fs : filesystem) (filename : path)
  : exception + list str :=
  match fs filename with
  | None => inl OSError
  | Some bytes =>
      match decode bytes with
      | None => inl UnicodeDecodeError
      | Some text => inr (readlines text)
      end
  end.

End TextIO.

(** ** What the program prints *)

(** One constructor per [print] call of the source, holding the values its
    f-string interpolates. *)
Inductive message : Type :=
| FoundBacktick (line_num char_pos total : nat)
| UnclosedWarning (line_num : nat)
| TotalBackticks (total : nat)
| VerdictError
| VerdictOK.

(** [str(n)] for a non-negative [int]. *)
Definition decimal (n : nat) : string :=
  NilZero.string_of_uint (Nat.to_uint n).

Definition newline : ascii := ascii_of_nat 10.

(** The text of each message, as the f-strings of the source build it. *)
Definition format (m : message) : string :=
  match m with
  | FoundBacktick line_num char_pos total =>
      "Line " ++ decimal line_num ++ ", char " ++ decimal char_pos
      ++ ": Found backtick (total: " ++ decimal total ++ ")"
  | UnclosedWarning line_num =>
      "*** WARNING: Unclosed backtick detected at end of line "
      ++ decimal line_num
  | TotalBackticks total =>
      String newline ("Total backticks: " ++ decimal total)
  | VerdictError =>
      "ERROR: Odd number of backticks - there's an unclosed template literal!"
  | VerdictOK =>
      "OK: Even number of backticks"
  end%string.

(** [print] writes its argument and a line terminator. *)
Definition printed_text (m : message) : string :=
  (format m ++ String newline EmptyString)%string.

(** The bytes that reach standard output for a sequence of [print] calls. *)
Definition render (out : list message) : string :=
  fold_right (fun m rest => (printed_text m ++ rest)%string) EmptyString out.

(** Number of line terminators in a text, that is, of lines written. *)
Fixpoint count_lines (s : string) : nat :=
  match s with
  | EmptyString => 0
  | String c rest =>
      (if Ascii.eqb c newline then 1 else 0) + count_lines rest
  end.

(** ** The scanner *)

Module Scanner.

Import TextIO.

(** The mutable state of one call: the local [backtick_count] and what
    has been printed so far, oldest first. *)
Record state : Type := mkState {
  backtick_count : nat;
  stdout : list message
}.

Definition M (A : Type) : Type := state -> A * state.

Definition ret {A} (a : A) : M A := fun st => (a, st).
Definition bind {A B} (c : M A) (k : A -> M B) : M B :=
  fun st => let (a, st') := c st in k a st'.

Declare Scope scan_scope.
Delimit Scope scan_scope with scan.
Notation "x <- c1 ;; c2" := (bind c1 (fun x => c2))
  (at level 61, c1 at next level, right associativity) : scan_scope.
Notation "c1 ;; c2" := (bind c1 (fun _ => c2))
  (at level 61, right associativity) : scan_scope.
Local Open Scope scan_scope.

Definition get_count : M nat := fun st => (backtick_count st, st).

(** [backtick_count += 1] *)
Definition increment : M unit :=
  fun st => (tt, mkState (backtick_count st + 1) (stdout st)).

Definition print (m : message) : M unit :=
  fun st => (tt, mkState (backtick_count st) (stdout st ++ [m])).

Definition when (b : bool) (c : M unit) : M unit :=
  if b then c else ret tt.

(** [for i, x in enumerate(xs, start): body i x] *)
Fixpoint for_enumerate {A} (start : nat) (xs : list A)
         (body : nat -> A -> M unit) : M unit :=
  match xs with
  | [] => ret tt
  | x :: rest => body start x ;; for_enumerate (S start) rest body
  end.

Definition exec {A} (c : M A) (st : state) : state := snd (c st).

(** The body of the inner loop. *)
Definition scan_char (line_num char_pos : nat) (char : codepoint) : M unit :=
  when (char =? backtick)%N
    (increment ;;
     total <- get_count ;;
     print (FoundBacktick line_num (char_pos + 1) total)).

(** The body of the outer loop: the inner loop, then the parity check at
    the end of the line. *)
Definition scan_line (line_num : nat) (line : str) : M unit :=
  for_enumerate 0 line (scan_char line_num) ;;
  total <- get_count ;;
  when (total mod 2 =? 1) (print (UnclosedWarning line_num)).

Definition scan_lines (lines : list str) : M unit :=
  for_enumerate 1 lines scan_line.

Definition summary : M unit :=
  total <- get_count ;;
  print (TotalBackticks total) ;;
  if total mod 2 =? 1 then print VerdictError else print VerdictOK.

Definition initial : state := mkState 0 [].

(** Everything after the file has been read. *)
Definition scan (lines : list str) : state :=
  exec (scan_lines lines ;; summary) initial.

(** The result of a call: what was printed, and the exception that ended
    it if one did. *)
Record run : Type := mkRun {
  output : list message;
  raised : option exception
}.

Definition find_unclosed_backtick (fs : filesystem) (filename : path) : run :=
  match open_readlines fs filename with
  | inl e => mkRun [] (Some e)
  | inr lines => mkRun (stdout (scan lines)) None
  end.

(** [if __name__ == "__main__"]: the script runs on one fixed path. *)
Definition target : path := "app/register/page.tsx"%string.

Definition main (fs : filesystem) : run := find_unclosed_backtick fs target.

(** The state of the scan when the first [i] lines have been processed. *)
Definition after_lines (lines : list str) (i : nat) : state :=
  exec (scan_lines (firstn i lines)) initial.

End Scanner.

Import TextIO Scanner.

(** ** Counting backticks *)

Definition count_backticks (text : str) : nat :=
  count_occ N.eq_dec text backtick.

Definition total_backticks (lines : list str) : nat :=
  list_sum (map count_backticks lines).

(** Backtick bytes of a file as it is stored. *)
Definition file_backticks (bytes : list byte) : nat :=
  count_occ N.eq_dec (map Byte.to_N bytes) backtick.

(** ** Reading the output *)

Definition event_totals (out : list message) : list nat :=
  flat_map (fun m => match m with
                     | FoundBacktick _ _ total => [total]
                     | _ => []
                     end) out.

Definition event_positions (out : list message) : list (nat * nat) :=
  flat_map (fun m => match m with
                     | FoundBacktick line_num char_pos _ => [(line_num, char_pos)]
                     | _ => []
                     end) out.

Definition warned_lines (out : list message) : list nat :=
  flat_map (fun m => match m with
                     | UnclosedWarning line_num => [line_num]
                     | _ => []
                     end) out.

Definition is_event (m : message) : bool :=
  match m with FoundBacktick _ _ _ => true | _ => false end.

Definition is_warning (m : message) : bool :=
  match m with UnclosedWarning _ => true | _ => false end.

(** The last message printed. *)
Definition verdict (out : list message) : option message :=
  last (map Some out) None.

(** ** What each loop writes, as a function of the counter it starts from *)

Fixpoint char_events (line_num char_pos count : nat) (line : str)
  : list message :=
  match line with
  | [] => []
  | char :: rest =>
      if (char =? backtick)%N
      then FoundBacktick line_num (char_pos + 1) (count + 1)
             :: char_events line_num (S char_pos) (count + 1) rest
      else char_events line_num (S char_pos) count rest
  end.

Definition line_warning (line_num count : nat) : list message :=
  if count mod 2 =? 1 then [UnclosedWarning line_num] else [].

Definition line_output (line_num count : nat) (line : str) : list message :=
  char_events line_num 0 count line
  ++ line_warning line_num (count + count_backticks line).

Fixpoint lines_output (line_num count : nat) (lines : list str)
  : list message :=
  match lines with
  | [] => []
  | line :: rest =>
      line_output line_num count line
      ++ lines_output (S line_num) (count + count_backticks line) rest
  end.

Definition summary_output (count : nat) : list message :=
  [TotalBackticks count; if count mod 2 =? 1 then VerdictError else VerdictOK].

(** ** Lines and their terminators *)

(** A line without the "\n" it may end with. *)
Fixpoint line_body (line : str) : str :=
  match line with
  | [] => []
  | c :: rest =>
      match rest with
      | [] => if (c =? LF)%N then [] else [c]
      | _ :: _ => c :: line_body rest
      end
  end.

(** The "\n" a line ends with, if it does. *)
Definition line_terminator (line : str) : str :=
  if (last line 0%N =? LF)%N then [LF] else [].

(** ** Digits in a printed text *)

Definition is_digit (c : ascii) : bool :=
  (48 <=? nat_of_ascii c) && (nat_of_ascii c <=? 57).

Fixpoint all_digits (s : string) : bool :=
  match s with
  | EmptyString => true
  | String c rest => is_digit c && all_digits rest
  end.

(** ** Order, shifts and counts of messages *)

Definition is_total (m : message) : bool :=
  match m with TotalBackticks _ => true | _ => false end.

(** [precedes m1 m2]: [m1] belongs earlier in a report than [m2].  Events
    go by line, then by position; the warning of a line comes after the
    events of that line and before anything of a later line; the total
    comes after the loops and the verdict after the total. *)
Definition precedes (m1 m2 : message) : Prop :=
  match m1, m2 with
  | FoundBacktick n1 p1 _, FoundBacktick n2 p2 _ =>
      n1 < n2 \/ (n1 = n2 /\ p1 < p2)
  | FoundBacktick n1 _ _, UnclosedWarning n2 => n1 <= n2
  | UnclosedWarning n1, FoundBacktick n2 _ _ => n1 < n2
  | UnclosedWarning n1, UnclosedWarning n2 => n1 < n2
  | FoundBacktick _ _ _, _ => True
  | UnclosedWarning _, _ => True
  | TotalBackticks _, VerdictError => True
  | TotalBackticks _, VerdictOK => True
  | _, _ => False
  end.

(** A message of the loops moved down by [lines] lines, its total raised
    by [count]. *)
Definition shift (lines count : nat) (m : message) : message :=
  match m with
  | FoundBacktick line_num char_pos total =>
      FoundBacktick (line_num + lines) char_pos (total + count)
  | UnclosedWarning line_num => UnclosedWarning (line_num + lines)
  | _ => m
  end.

(** Number of events a report holds for line [n]. *)
Definition events_on_line (out : list message) (n : nat) : nat :=
  List.length (filter (fun lp => fst lp =? n) (event_positions out)).

(** The counter agrees with the events printed so far. *)
Definition consistent (st : state) : Prop :=
  backtick_count st = List.length (event_totals (stdout st)).

(** ** Example files *)

(** A file system with one file, at the path the script is run on. *)
Definition single_file (content : list byte) : filesystem :=
  fun p => if String.eqb p target then Some content else None.

(** Two lines, "`a" and "b`". *)
Definition two_lines : list byte :=
  ["`"; "a"; x0a; "b"; "`"]%byte.

(** Three lines, "`", "a" and "b". *)
Definition dangling : list byte := ["`"; x0a; "a"; x0a; "b"; x0a]%byte.

(** ** The loops compute what the functions above describe *)

Section Execution.

Lemma exec_bind {A B} (c : M A) (k : A -> M B) (st : state) :
  exec (bind c k) st = exec (k (fst (c st))) (snd (c st)).
Proof. unfold exec, bind. destruct (c st); reflexivity. Qed.

Lemma exec_seq {A} (c : M unit) (k : M A) (st : state) :
  exec (bind c (fun _ => k)) st = exec k (exec c st).
Proof. apply (exec_bind c (fun _ => k)). Qed.

Lemma count_backticks_cons (char : codepoint) (rest : str) :
  count_backticks (char :: rest)
  = (if (char =? backtick)%N then 1 else 0) + count_backticks rest.
Proof.
  unfold count_backticks; simpl.
  destruct (N.eqb_spec char backtick) as [E | E];
    destruct (N.eq_dec char backtick); try contradiction; reflexivity.
Qed.

Lemma total_backticks_cons (line : str) (rest : list str) :
  total_backticks (line :: rest) = count_backticks line + total_backticks rest.
Proof. reflexivity. Qed.

Lemma exec_scan_char (line_num char_pos : nat) (char : codepoint) (st : state) :
  exec (scan_char line_num char_pos char) st
  = if (char =? backtick)%N
    then mkState (backtick_count st + 1)
                 (stdout st ++ [FoundBacktick line_num (char_pos + 1)
                                              (backtick_count st + 1)])
    else st.
Proof.
  unfold scan_char, when. destruct (char =? backtick)%N; reflexivity.
Qed.

Lemma exec_inner (line_num : nat) (line : str) :
  forall char_pos st,
    exec (for_enumerate char_pos line (scan_char line_num)) st
    = mkState (backtick_count st + count_backticks line)
              (stdout st
               ++ char_events line_num char_pos (backtick_count st) line).
Proof.
  induction line as [| char rest IH]; intros char_pos [count out].
  - cbn. now rewrite Nat.add_0_r, app_nil_r.
  - cbn [for_enumerate char_events]. rewrite exec_seq, exec_scan_char, IH.
    rewrite count_backticks_cons.
    destruct (char =? backtick)%N; cbn [backtick_count stdout].
    + rewrite <- app_assoc. f_equal. lia.
    + reflexivity.
Qed.

Lemma exec_scan_line (line_num : nat) (line : str) (st : state) :
  exec (scan_line line_num line) st
  = mkState (backtick_count st + count_backticks line)
            (stdout st ++ line_output line_num (backtick_count st) line).
Proof.
  unfold scan_line. rewrite exec_seq, exec_inner.
  unfold line_output, line_warning, exec, bind, get_count, when.
  cbn [fst snd backtick_count stdout].
  destruct (_ mod 2 =? 1); cbn.
  - now rewrite app_assoc.
  - now rewrite app_nil_r.
Qed.

Lemma exec_outer (lines : list str) :
  forall line_num st,
    exec (for_enumerate line_num lines scan_line) st
    = mkState (backtick_count st + total_backticks lines)
              (stdout st ++ lines_output line_num (backtick_count st) lines).
Proof.
  induction lines as [| line rest IH]; intros line_num [count out].
  - cbn. now rewrite Nat.add_0_r, app_nil_r.
  - cbn [for_enumerate lines_output]. rewrite exec_seq, exec_scan_line, IH.
    cbn [backtick_count stdout]. rewrite total_backticks_cons.
    rewrite <- app_assoc. f_equal. lia.
Qed.

Lemma exec_summary (st : state) :
  exec summary st
  = mkState (backtick_count st)
            (stdout st ++ summary_output (backtick_count st)).
Proof.
  unfold summary, summary_output, exec, bind, get_count, print.
  cbn [fst snd backtick_count stdout].
  destruct (_ mod 2 =? 1); cbn; now rewrite <- app_assoc.
Qed.

Lemma scan_eq (lines : list str) :
  scan lines
  = mkState (total_backticks lines)
            (lines_output 1 0 lines ++ summary_output (total_backticks lines)).
Proof.
  unfold scan, scan_lines. rewrite exec_seq, exec_outer, exec_summary.
  reflexivity.
Qed.

Lemma after_lines_eq (lines : list str) (i : nat) :
  after_lines lines i
  = mkState (total_backticks (firstn i lines))
            (lines_output 1 0 (firstn i lines)).
Proof. unfold after_lines, scan_lines. now rewrite exec_outer. Qed.

Lemma counter_after_lines (lines : list str) (i : nat) :
  backtick_count (after_lines lines i) = total_backticks (firstn i lines).
Proof. now rewrite after_lines_eq. Qed.

Lemma for_enumerate_app {A} (body : nat -> A -> M unit) (xs ys : list A) :
  forall start st,
    exec (for_enumerate start (xs ++ ys) body) st
    = exec (for_enumerate (start + List.length xs) ys body)
           (exec (for_enumerate start xs body) st).
Proof.
  induction xs as [| x xs IH]; intros start st.
  - cbn. now rewrite Nat.add_0_r.
  - cbn [app for_enumerate List.length]. rewrite !exec_seq, IH.
    do 2 f_equal. lia.
Qed.

End Execution.

(** ** The text layer keeps every backtick *)

Section TextLayer.

Ltac bool_to_prop :=
  repeat match goal with
  | H : (_ && _) = true |- _ => apply andb_true_iff in H; destruct H
  | H : (_ <=? _)%N = true |- _ => apply N.leb_le in H
  | H : (_ <? _)%N = true |- _ => apply N.ltb_lt in H
  | H : (_ <? _)%N = false |- _ => apply N.ltb_ge in H
  | H : (_ =? _)%N = true |- _ => apply N.eqb_eq in H
  | H : (_ =? _)%N = false |- _ => apply N.eqb_neq in H
  end.

Lemma count_occ_cons_N (b : N) (rest : list N) :
  count_occ N.eq_dec (b :: rest) backtick
  = (if (b =? backtick)%N then 1 else 0) + count_occ N.eq_dec rest backtick.
Proof. apply count_backticks_cons. Qed.

Lemma second3_high (b0 b1 : N) :
  (0xE0 <= b0)%N -> second3 b0 b1 = true ->
  (0x80 <= b1 /\ 96 < (b0 - 0xE0) * 4096 + payload b1 * 64)%N.
Proof.
  unfold second3, continuation, between, payload. intros H0 H.
  destruct (b0 =? 0xE0)%N eqn:E0; [| destruct (b0 =? 0xED)%N eqn:E1];
    bool_to_prop; lia.
Qed.

Lemma second4_high (b0 b1 : N) :
  (0xF0 <= b0)%N -> second4 b0 b1 = true ->
  (0x80 <= b1 /\ 96 < (b0 - 0xF0) * 262144 + payload b1 * 4096)%N.
Proof.
  unfold second4, continuation, between, payload. intros H0 H.
  destruct (b0 =? 0xF0)%N eqn:E0; [| destruct (b0 =? 0xF4)%N eqn:E1];
    bool_to_prop; lia.
Qed.

Lemma not_backtick (c : N) : (96 < c)%N -> (c =? backtick)%N = false.
Proof. intros H. apply N.eqb_neq. unfold backtick. lia. Qed.

Lemma continuation_not_backtick (b : N) :
  continuation b = true -> (b =? backtick)%N = false.
Proof.
  unfold continuation, between. intros H. bool_to_prop.
  apply not_backtick. lia.
Qed.

(** A byte 0x60 of a valid UTF-8 file is always the character U+0060, and
    no other character has such a byte in its encoding. *)
Lemma utf8_decode_backticks :
  forall n bs text,
    List.length bs <= n ->
    utf8_decode bs = Some text ->
    count_occ N.eq_dec bs backtick = count_backticks text.
Proof.
  induction n as [| n IH]; intros bs text Hlen Hdec.
  - destruct bs; [| simpl in Hlen; lia].
    simpl in Hdec. now injection Hdec as <-.
  - destruct bs as [| b0 r0]; [simpl in Hdec; now injection Hdec as <- |].
    cbn [utf8_decode] in Hdec. simpl in Hlen.
    destruct (b0 <? 0x80)%N eqn:A.
    { destruct (utf8_decode r0) as [t |] eqn:D; [| discriminate].
      injection Hdec as <-.
      rewrite count_occ_cons_N, count_backticks_cons.
      f_equal. apply IH; [lia | assumption]. }
    destruct (between 0xC2 0xDF b0) eqn:B2.
    { destruct r0 as [| b1 r1]; [discriminate |].
      destruct (continuation b1) eqn:C1; [| discriminate].
      destruct (utf8_decode r1) as [t |] eqn:D; [| discriminate].
      injection Hdec as <-. simpl in Hlen.
      rewrite !count_occ_cons_N, count_backticks_cons.
      rewrite (continuation_not_backtick _ C1).
      unfold between in B2. unfold continuation, between, payload in C1.
      bool_to_prop.
      rewrite !not_backtick by (unfold payload; lia).
      apply IH; [lia | assumption]. }
    destruct (between 0xE0 0xEF b0) eqn:B3.
    { destruct r0 as [| b1 [| b2 r2]]; try discriminate.
      destruct (second3 b0 b1 && continuation b2) eqn:C; [| discriminate].
      destruct (utf8_decode r2) as [t |] eqn:D; [| discriminate].
      injection Hdec as <-. simpl in Hlen.
      unfold between in B3. bool_to_prop.
      destruct (second3_high b0 b1) as [L1 L2]; [assumption .. |].
      rewrite !count_occ_cons_N, count_backticks_cons.
      rewrite (continuation_not_backtick b2) by assumption.
      rewrite !not_backtick by lia.
      apply IH; [lia | assumption]. }
    destruct (between 0xF0 0xF4 b0) eqn:B4; [| discriminate].
    destruct r0 as [| b1 [| b2 [| b3 r3]]]; try discriminate.
    destruct (second4 b0 b1 && continuation b2 && continuation b3) eqn:C;
      [| discriminate].
    destruct (utf8_decode r3) as [t |] eqn:D; [| discriminate].
    injection Hdec as <-. simpl in Hlen.
    unfold between in B4. bool_to_prop.
    destruct (second4_high b0 b1) as [L1 L2]; [assumption .. |].
    rewrite !count_occ_cons_N, count_backticks_cons.
    rewrite (continuation_not_backtick b2), (continuation_not_backtick b3)
      by assumption.
    rewrite !not_backtick by lia.
    apply IH; [lia | assumption].
Qed.

Lemma decode_backticks (bytes : list byte) (text : str) :
  decode bytes = Some text -> file_backticks bytes = count_backticks text.
Proof.
  unfold decode, file_backticks. intros H.
  now apply (utf8_decode_backticks (List.length (map Byte.to_N bytes))).
Qed.

Lemma LF_not_backtick : (LF =? backtick)%N = false.
Proof. reflexivity. Qed.

Lemma CR_not_backtick : (CR =? backtick)%N = false.
Proof. reflexivity. Qed.

Lemma backtick_not_LF : backtick <> LF.
Proof. discriminate. Qed.

Lemma translate_newlines_backticks :
  forall n text,
    List.length text <= n ->
    count_backticks (translate_newlines text) = count_backticks text.
Proof.
  induction n as [| n IH]; intros text Hlen.
  - destruct text; [reflexivity | simpl in Hlen; lia].
  - destruct text as [| c rest]; [reflexivity |].
    simpl in Hlen. cbn [translate_newlines].
    destruct (c =? CR)%N eqn:E.
    + apply N.eqb_eq in E. subst c.
      destruct rest as [| c' rest'].
      * reflexivity.
      * destruct (c' =? LF)%N eqn:E'.
        -- apply N.eqb_eq in E'. subst c'. simpl in Hlen.
           rewrite !count_backticks_cons, LF_not_backtick, CR_not_backtick.
           cbn [Nat.add]. apply IH. lia.
        -- rewrite (count_backticks_cons LF), (count_backticks_cons CR).
           rewrite LF_not_backtick, CR_not_backtick.
           cbn [Nat.add]. apply IH. lia.
    + rewrite !count_backticks_cons. f_equal. apply IH. lia.
Qed.

Lemma count_backticks_app (xs ys : str) :
  count_backticks (xs ++ ys) = count_backticks xs + count_backticks ys.
Proof. apply count_occ_app. Qed.

Lemma total_backticks_app (xs ys : list str) :
  total_backticks (xs ++ ys) = total_backticks xs + total_backticks ys.
Proof.
  unfold total_backticks. now rewrite map_app, list_sum_app.
Qed.

Lemma split_keepends_backticks (text : str) :
  total_backticks (split_keepends text) = count_backticks text.
Proof.
  induction text as [| c rest IH]; [reflexivity |].
  cbn [split_keepends]. rewrite count_backticks_cons.
  destruct (c =? LF)%N eqn:E.
  - apply N.eqb_eq in E. subst c.
    rewrite total_backticks_cons, IH. reflexivity.
  - destruct (split_keepends rest) as [| line lines].
    + rewrite <- IH. rewrite total_backticks_cons, count_backticks_cons.
      change (count_backticks []) with 0.
      change (total_backticks []) with 0. lia.
    + rewrite <- IH. rewrite !total_backticks_cons, count_backticks_cons. lia.
Qed.

Lemma readlines_backticks (text : str) :
  total_backticks (readlines text) = count_backticks text.
Proof.
  unfold readlines. rewrite split_keepends_backticks.
  now apply (translate_newlines_backticks (List.length text)).
Qed.

Lemma total_backticks_firstn_S (lines : list str) :
  forall k,
    total_backticks (firstn (S k) lines)
    = total_backticks (firstn k lines) + count_backticks (nth k lines []).
Proof.
  induction lines as [| line rest IH]; intros k.
  - cbn. now destruct k.
  - destruct k as [| k].
    + cbn [firstn nth]. rewrite total_backticks_cons.
      change (total_backticks []) with 0. lia.
    + rewrite !firstn_cons. cbn [nth].
      rewrite !total_backticks_cons, IH. lia.
Qed.

Lemma total_backticks_firstn_le (lines : list str) (i j : nat) :
  i <= j ->
  total_backticks (firstn i lines) <= total_backticks (firstn j lines).
Proof.
  induction 1 as [| j _ IH]; [lia |].
  rewrite total_backticks_firstn_S. lia.
Qed.

Lemma quiet_lines_keep_total (lines : list str) (i j : nat) :
  i <= j ->
  (forall k, i < k <= j -> count_backticks (nth (k - 1) lines []) = 0) ->
  total_backticks (firstn j lines) = total_backticks (firstn i lines).
Proof.
  induction 1 as [| j Hij IH]; intros Hquiet; [reflexivity |].
  rewrite total_backticks_firstn_S, IH.
  - specialize (Hquiet (S j)). cbn [Nat.sub] in Hquiet.
    rewrite Nat.sub_0_r in Hquiet. rewrite Hquiet; lia.
  - intros k Hk. apply Hquiet. lia.
Qed.

End TextLayer.

(** ** Lines and the terminator [readlines] leaves on them *)

Section Lines.

Lemma line_body_terminator (line : str) :
  line = line_body line ++ line_terminator line.
Proof.
  unfold line_terminator.
  induction line as [| c rest IH]; [reflexivity |].
  destruct rest as [| c' rest'].
  - cbn [line_body last]. destruct (N.eqb_spec c LF) as [-> | _]; reflexivity.
  - change (last (c :: c' :: rest') 0%N) with (last (c' :: rest') 0%N).
    change (line_body (c :: c' :: rest')) with (c :: line_body (c' :: rest')).
    cbn [app]. now rewrite <- IH.
Qed.

Lemma line_body_cons (c : codepoint) (rest : str) :
  rest <> [] -> line_body (c :: rest) = c :: line_body rest.
Proof. destruct rest; [contradiction | reflexivity]. Qed.

(** After [split_keepends], a "\n" is found at the end of a line only. *)
Lemma split_keepends_body (text : str) :
  Forall (fun line => ~ In LF (line_body line)) (split_keepends text).
Proof.
  induction text as [| c rest IH]; [constructor |].
  cbn [split_keepends]. destruct (N.eqb_spec c LF) as [-> | Hc].
  - constructor; [| assumption]. cbn. tauto.
  - destruct (split_keepends rest) as [| line lines].
    + repeat constructor. cbn [line_body].
      destruct (N.eqb_spec c LF); cbn; intuition congruence.
    + inversion IH as [| ? ? Hline Hlines]; subst.
      constructor; [| assumption].
      destruct line as [| c' line'].
      * cbn [line_body]. destruct (N.eqb_spec c LF); cbn; intuition congruence.
      * rewrite line_body_cons by discriminate.
        cbn [In]. intuition congruence.
Qed.

Lemma line_body_keeps (line : str) :
  forall k c,
    c <> LF ->
    nth_error line k = Some c ->
    nth_error (line_body line) k = Some c.
Proof.
  induction line as [| c0 rest IH]; intros k c Hc Hk.
  - now destruct k.
  - destruct rest as [| c' rest'].
    + destruct k as [| k]; [| now destruct k].
      cbn in Hk. injection Hk as ->. cbn [line_body].
      now destruct (N.eqb_spec c LF).
    + rewrite line_body_cons by discriminate.
      destruct k as [| k]; [assumption |]. cbn [nth_error] in *. now apply IH.
Qed.

Lemma line_body_prefix (line : str) :
  forall k c,
    nth_error (line_body line) k = Some c -> nth_error line k = Some c.
Proof.
  intros k c H. rewrite (line_body_terminator line).
  rewrite nth_error_app1; [assumption |].
  apply nth_error_Some. congruence.
Qed.

Lemma line_body_backticks (line : str) :
  count_backticks (line_body line) = count_backticks line.
Proof.
  assert (T : count_backticks (line_terminator line) = 0).
  { unfold line_terminator. destruct (_ =? LF)%N; [| reflexivity].
    now rewrite count_backticks_cons, LF_not_backtick. }
  rewrite (line_body_terminator line) at 2.
  now rewrite count_backticks_app, T, Nat.add_0_r.
Qed.

End Lines.

(** ** Shape of the output of the loops *)

Section LoopOutput.

Lemma event_totals_app (xs ys : list message) :
  event_totals (xs ++ ys) = event_totals xs ++ event_totals ys.
Proof. apply flat_map_app. Qed.

Lemma warned_lines_app (xs ys : list message) :
  warned_lines (xs ++ ys) = warned_lines xs ++ warned_lines ys.
Proof. apply flat_map_app. Qed.

Lemma event_totals_line_warning (line_num count : nat) :
  event_totals (line_warning line_num count) = [].
Proof. unfold line_warning. now destruct (_ =? 1). Qed.

Lemma warned_lines_line_warning (line_num count : nat) :
  warned_lines (line_warning line_num count)
  = if count mod 2 =? 1 then [line_num] else [].
Proof. unfold line_warning. now destruct (_ =? 1). Qed.

Lemma event_totals_char_events (line_num : nat) (line : str) :
  forall char_pos count,
    event_totals (char_events line_num char_pos count line)
    = seq (count + 1) (count_backticks line).
Proof.
  induction line as [| char rest IH]; intros char_pos count; [reflexivity |].
  cbn [char_events]. rewrite count_backticks_cons.
  destruct (char =? backtick)%N.
  - cbn [event_totals flat_map app Nat.add seq]. f_equal.
    change (flat_map _ ?l) with (event_totals l).
    rewrite IH. f_equal. lia.
  - apply IH.
Qed.

Lemma warned_lines_char_events (line_num : nat) (line : str) :
  forall char_pos count,
    warned_lines (char_events line_num char_pos count line) = [].
Proof.
  induction line as [| char rest IH]; intros char_pos count; [reflexivity |].
  cbn [char_events]. destruct (char =? backtick)%N; [cbn |]; apply IH.
Qed.

(** The totals of the events of a run of lines count up from the counter
    the run started with. *)
Lemma event_totals_lines_output (lines : list str) :
  forall line_num count,
    event_totals (lines_output line_num count lines)
    = seq (count + 1) (total_backticks lines).
Proof.
  induction lines as [| line rest IH]; intros line_num count; [reflexivity |].
  cbn [lines_output]. unfold line_output.
  rewrite !event_totals_app, event_totals_char_events,
    event_totals_line_warning, IH, total_backticks_cons, app_nil_r.
  rewrite seq_app. do 2 f_equal. lia.
Qed.

Lemma event_totals_summary (count : nat) :
  event_totals (summary_output count) = [].
Proof. unfold summary_output. now destruct (_ =? 1). Qed.

Lemma warned_lines_summary (count : nat) :
  warned_lines (summary_output count) = [].
Proof. unfold summary_output. now destruct (_ =? 1). Qed.

(** The loops print events and warnings only. *)
Lemma char_events_kind (line_num : nat) (line : str) :
  forall char_pos count,
    Forall (fun m => is_event m = true)
           (char_events line_num char_pos count line).
Proof.
  induction line as [| char rest IH]; intros char_pos count; [constructor |].
  cbn [char_events]. destruct (char =? backtick)%N; [constructor |]; auto.
Qed.

Lemma lines_output_kind (lines : list str) :
  forall line_num count,
    Forall (fun m => is_event m || is_warning m = true)
           (lines_output line_num count lines).
Proof.
  induction lines as [| line rest IH]; intros line_num count; [constructor |].
  cbn [lines_output]. unfold line_output, line_warning.
  rewrite !Forall_app. repeat split.
  - eapply Forall_impl; [| apply char_events_kind].
    intros m ->. reflexivity.
  - destruct (_ =? 1); repeat constructor.
  - apply IH.
Qed.

Lemma summary_not_in_loop (m : message) (lines : list str) (line_num count : nat) :
  is_event m || is_warning m = false ->
  ~ In m (lines_output line_num count lines).
Proof.
  intros Hm Hin.
  pose proof (lines_output_kind lines line_num count) as K.
  rewrite Forall_forall in K. apply K in Hin. congruence.
Qed.

Lemma verdict_last (out : list message) (m : message) :
  verdict (out ++ [m]) = Some m.
Proof. unfold verdict. rewrite map_app. apply last_last. Qed.

Lemma parity_cases (n : nat) :
  (n mod 2 =? 1) = Nat.odd n /\ Nat.even n = negb (Nat.odd n).
Proof.
  split.
  - destruct (Nat.odd n) eqn:E.
    + apply Nat.eqb_eq. apply Nat.odd_spec in E. destruct E as [k ->].
      rewrite Nat.add_comm, Nat.mul_comm. now rewrite Nat.Div0.mod_add.
    + apply Nat.eqb_neq. intros H.
      assert (Ev : Nat.even n = true)
        by (rewrite <- Nat.negb_odd, E; reflexivity).
      apply Nat.even_spec in Ev. destruct Ev as [k ->].
      rewrite Nat.mul_comm, Nat.Div0.mod_mul in H. discriminate.
  - now rewrite <- Nat.negb_odd.
Qed.

Lemma filter_is_event_length (out : list message) :
  List.length (filter is_event out) = List.length (event_totals out).
Proof.
  induction out as [| m out IH]; [reflexivity |].
  destruct m; cbn; auto.
Qed.

Lemma char_events_none (line_num : nat) (line : str) :
  forall char_pos count,
    count_backticks line = 0 ->
    char_events line_num char_pos count line = [].
Proof.
  induction line as [| char rest IH]; intros char_pos count H; [reflexivity |].
  rewrite count_backticks_cons in H. cbn [char_events].
  destruct (char =? backtick)%N; [discriminate |]. now apply IH.
Qed.

Lemma lines_output_none (lines : list str) :
  forall line_num,
    total_backticks lines = 0 ->
    lines_output line_num 0 lines = [].
Proof.
  induction lines as [| line rest IH]; intros line_num H; [reflexivity |].
  rewrite total_backticks_cons in H.
  assert (H1 : count_backticks line = 0) by lia.
  assert (H2 : total_backticks rest = 0) by lia.
  cbn [lines_output]. unfold line_output.
  rewrite char_events_none, H1 by assumption. cbn [Nat.add].
  now rewrite IH.
Qed.

Lemma In_warned_lines (out : list message) (i : nat) :
  In (UnclosedWarning i) out <-> In i (warned_lines out).
Proof.
  unfold warned_lines. rewrite in_flat_map. split.
  - intros H. exists (UnclosedWarning i). split; [assumption | now left].
  - intros [m [Hm Hi]]. destruct m; cbn in Hi; try contradiction.
    destruct Hi as [-> | []]. assumption.
Qed.

(** The warnings of a run of lines are those of the lines after which the
    cumulative count is odd, in order. *)
Lemma warned_lines_lines_output (lines : list str) :
  forall line_num count,
    warned_lines (lines_output line_num count lines)
    = filter (fun i => (count + total_backticks (firstn (i + 1 - line_num) lines))
                         mod 2 =? 1)
             (seq line_num (List.length lines)).
Proof.
  induction lines as [| line rest IH]; intros line_num count; [reflexivity |].
  cbn [lines_output List.length seq filter]. unfold line_output.
  rewrite !warned_lines_app, warned_lines_char_events,
    warned_lines_line_warning, IH.
  cbn [app].
  replace (line_num + 1 - line_num) with 1 by lia.
  cbn [firstn]. rewrite total_backticks_cons.
  change (total_backticks []) with 0. rewrite Nat.add_0_r.
  assert (E : filter (fun i => (count + count_backticks line
                                + total_backticks (firstn (i + 1 - S line_num) rest))
                                 mod 2 =? 1)
                     (seq (S line_num) (List.length rest))
              = filter (fun i => (count + total_backticks
                                            (firstn (i + 1 - line_num) (line :: rest)))
                                   mod 2 =? 1)
                       (seq (S line_num) (List.length rest))).
  { apply filter_ext_in. intros k Hk. apply in_seq in Hk.
    replace (k + 1 - line_num) with (S (k + 1 - S line_num)) by lia.
    cbn [firstn]. rewrite total_backticks_cons. do 2 f_equal. lia. }
  rewrite E. now destruct (_ =? 1).
Qed.

(** Every event of the inner loop points at a backtick of the line. *)
Lemma char_events_sound (line_num : nat) (line : str) :
  forall char_pos count n p t,
    In (FoundBacktick n p t) (char_events line_num char_pos count line) ->
    n = line_num /\ char_pos < p
    /\ nth_error line (p - char_pos - 1) = Some backtick.
Proof.
  induction line as [| char rest IH]; intros char_pos count n p t Hin;
    [contradiction |].
  cbn [char_events] in Hin.
  assert (Hrest : forall count',
             In (FoundBacktick n p t)
                (char_events line_num (S char_pos) count' rest) ->
             n = line_num /\ char_pos < p
             /\ nth_error (char :: rest) (p - char_pos - 1) = Some backtick).
  { intros count' H. apply IH in H. destruct H as (Hn & Hp & Hnth).
    repeat split; [assumption | lia |].
    replace (p - char_pos - 1) with (S (p - S char_pos - 1)) by lia.
    exact Hnth. }
  destruct (N.eqb_spec char backtick) as [-> | _]; [| now apply Hrest in Hin].
  destruct Hin as [Heq | Hin]; [| now apply Hrest in Hin].
  injection Heq as <- <- <-. repeat split; [lia |].
  now replace (char_pos + 1 - char_pos - 1) with 0 by lia.
Qed.

(** Every backtick of the line has its event. *)
Lemma char_events_complete (line_num : nat) (line : str) :
  forall char_pos count k,
    nth_error line k = Some backtick ->
    exists t,
      In (FoundBacktick line_num (char_pos + k + 1) t)
         (char_events line_num char_pos count line).
Proof.
  induction line as [| char rest IH]; intros char_pos count k Hk;
    [now destruct k |].
  cbn [char_events]. destruct k as [| k].
  - cbn in Hk. injection Hk as ->. cbn.
    exists (count + 1). left. f_equal. lia.
  - cbn [nth_error] in Hk.
    replace (char_pos + S k + 1) with (S char_pos + k + 1) by lia.
    destruct (char =? backtick)%N.
    + destruct (IH (S char_pos) (count + 1) k Hk) as [t Ht].
      exists t. now right.
    + apply IH, Hk.
Qed.

Lemma lines_output_sound (lines : list str) :
  forall line_num count n p t,
    In (FoundBacktick n p t) (lines_output line_num count lines) ->
    line_num <= n < line_num + List.length lines
    /\ 1 <= p
    /\ nth_error (nth (n - line_num) lines []) (p - 1) = Some backtick.
Proof.
  induction lines as [| line rest IH]; intros line_num count n p t Hin;
    [contradiction |].
  cbn [lines_output] in Hin. unfold line_output, line_warning in Hin.
  rewrite !in_app_iff in Hin. destruct Hin as [[Hin | Hin] | Hin].
  - apply char_events_sound in Hin. destruct Hin as (-> & Hp & Hnth).
    cbn [List.length]. rewrite Nat.sub_diag. cbn [nth].
    rewrite Nat.sub_0_r in Hnth. repeat split; (lia || assumption).
  - destruct (_ =? 1); [destruct Hin as [Hin | []]; discriminate | contradiction].
  - apply IH in Hin. destruct Hin as (Hn & Hp & Hnth). cbn [List.length].
    replace (n - line_num) with (S (n - S line_num)) by lia.
    repeat split; (lia || assumption).
Qed.

Lemma lines_output_complete (lines : list str) :
  forall line_num count n k,
    line_num <= n ->
    nth_error (nth (n - line_num) lines []) k = Some backtick ->
    exists t, In (FoundBacktick n (k + 1) t) (lines_output line_num count lines).
Proof.
  induction lines as [| line rest IH]; intros line_num count n k Hn Hk.
  - cbn in Hk. destruct (n - line_num); now destruct k.
  - cbn [lines_output]. unfold line_output.
    destruct (n - line_num) as [| d] eqn:Hd.
    + assert (n = line_num) by lia. subst n. cbn [nth] in Hk.
      destruct (char_events_complete line_num line 0 count k Hk) as [t Ht].
      exists t. rewrite !in_app_iff. now do 2 left.
    + cbn [nth] in Hk.
      replace d with (n - S line_num) in Hk by lia.
      destruct (IH (S line_num) (count + count_backticks line) n k) as [t Ht];
        [lia | assumption |].
      exists t. rewrite !in_app_iff. now right.
Qed.

Lemma In_event_positions (out : list message) (n p : nat) :
  In (n, p) (event_positions out) <-> exists t, In (FoundBacktick n p t) out.
Proof.
  unfold event_positions. rewrite in_flat_map. split.
  - intros [m [Hm Hin]]. destruct m; cbn in Hin; try contradiction.
    destruct Hin as [E | []]. injection E as -> ->. eauto.
  - intros [t Ht]. exists (FoundBacktick n p t). split; [assumption | now left].
Qed.

End LoopOutput.

(** ** Messages and their text *)

Section Format.

Lemma all_digits_uint (d : Decimal.uint) :
  all_digits (NilEmpty.string_of_uint d) = true.
Proof. induction d; cbn; auto. Qed.

Lemma all_digits_decimal (n : nat) : all_digits (decimal n) = true.
Proof.
  unfold decimal, NilZero.string_of_uint.
  destruct (Nat.to_uint n); try apply all_digits_uint. reflexivity.
Qed.

Lemma to_uint_not_Nil (n : nat) : Nat.to_uint n <> Decimal.Nil.
Proof.
  intros H. pose proof (DecimalNat.Unsigned.of_to n) as E.
  rewrite H in E. cbn in E. subst n. discriminate.
Qed.

Lemma decimal_injective (a b : nat) : decimal a = decimal b -> a = b.
Proof.
  unfold decimal. intros H.
  apply (f_equal NilZero.uint_of_string) in H.
  rewrite !NilZero.usu in H by apply to_uint_not_Nil.
  injection H as H. now apply DecimalNat.Unsigned.to_uint_inj.
Qed.

(** Two numbers followed by something that is not a digit can be told
    apart from the text alone. *)
Lemma digits_then_other (d1 : string) :
  forall d2 c1 s1 c2 s2,
    all_digits d1 = true -> all_digits d2 = true ->
    is_digit c1 = false -> is_digit c2 = false ->
    (d1 ++ String c1 s1 = d2 ++ String c2 s2)%string ->
    d1 = d2 /\ s1 = s2.
Proof.
  induction d1 as [| x d1 IH]; intros [| y d2] c1 s1 c2 s2 D1 D2 C1 C2 E;
    cbn [String.append all_digits] in *.
  - injection E as _ ->. now split.
  - injection E as -> _. apply andb_true_iff in D2. destruct D2. congruence.
  - injection E as -> _. apply andb_true_iff in D1. destruct D1. congruence.
  - injection E as -> E.
    apply andb_true_iff in D1, D2. destruct D1 as [_ D1], D2 as [_ D2].
    destruct (IH d2 c1 s1 c2 s2 D1 D2 C1 C2 E) as [-> ->]. now split.
Qed.

(** The tagged messages and the printed lines determine each other. *)
Lemma format_injective (m1 m2 : message) : format m1 = format m2 -> m1 = m2.
Proof.
  destruct m1 as [a1 b1 c1 | a1 | a1 | |], m2 as [a2 b2 c2 | a2 | a2 | |];
    cbn [format String.append]; intros H; try discriminate; try reflexivity.
  - injection H as H.
    apply digits_then_other in H;
      [| apply all_digits_decimal | apply all_digits_decimal
       | reflexivity | reflexivity].
    destruct H as [Ha H]. cbn [String.append] in H. injection H as H.
    apply digits_then_other in H;
      [| apply all_digits_decimal | apply all_digits_decimal
       | reflexivity | reflexivity].
    destruct H as [Hb H]. cbn [String.append] in H. injection H as H.
    apply digits_then_other in H;
      [| apply all_digits_decimal | apply all_digits_decimal
       | reflexivity | reflexivity].
    destruct H as [Hc _].
    apply decimal_injective in Ha, Hb, Hc. congruence.
  - injection H as H. apply decimal_injective in H. congruence.
  - injection H as H. apply decimal_injective in H. congruence.
Qed.

Lemma count_lines_app (s t : string) :
  count_lines (s ++ t) = count_lines s + count_lines t.
Proof.
  induction s as [| c s IH]; [reflexivity |].
  cbn [String.append count_lines]. rewrite IH. lia.
Qed.

Lemma count_lines_digits (d : Decimal.uint) :
  count_lines (NilEmpty.string_of_uint d) = 0.
Proof. induction d; cbn; auto. Qed.

Lemma count_lines_decimal (n : nat) : count_lines (decimal n) = 0.
Proof.
  unfold decimal, NilZero.string_of_uint.
  destruct (Nat.to_uint n); try apply count_lines_digits. reflexivity.
Qed.

(** Every [print] call writes one line, except the one for the total,
    whose text starts with a line terminator of its own. *)
Lemma count_lines_printed_text (m : message) :
  count_lines (printed_text m)
  = match m with TotalBackticks _ => 2 | _ => 1 end.
Proof.
  unfold printed_text.
  destruct m; cbn [format]; rewrite ?count_lines_app;
    cbn [count_lines]; rewrite ?count_lines_app, ?count_lines_decimal;
    reflexivity.
Qed.

Lemma string_app_assoc (s t u : string) :
  ((s ++ t) ++ u = s ++ (t ++ u))%string.
Proof.
  induction s as [| c s IH]; [reflexivity |].
  cbn [String.append]. now rewrite IH.
Qed.

Lemma render_app (xs ys : list message) :
  render (xs ++ ys) = (render xs ++ render ys)%string.
Proof.
  induction xs as [| m xs IH]; [reflexivity |].
  cbn [app render fold_right]. fold (render (xs ++ ys)). fold (render xs).
  rewrite IH. now rewrite string_app_assoc.
Qed.

Lemma count_lines_loop (out : list message) :
  Forall (fun m => is_event m || is_warning m = true) out ->
  count_lines (render out)
  = List.length (event_totals out) + List.length (warned_lines out)
  /\ List.length out
     = List.length (event_totals out) + List.length (warned_lines out).
Proof.
  induction 1 as [| m out Hm _ [IH1 IH2]]; [split; reflexivity |].
  cbn [render fold_right]. fold (render out).
  rewrite count_lines_app, count_lines_printed_text, IH1.
  change (m :: out) with ([m] ++ out).
  rewrite event_totals_app, warned_lines_app, !length_app, IH2.
  destruct m; try discriminate; cbn; lia.
Qed.

End Format.

(** ** A call that reads its file *)

Section SuccessfulRead.

Variables (fs : filesystem) (filename : path) (lines : list str).
Hypothesis Hread : open_readlines fs filename = inr lines.

Lemma output_of_lines :
  find_unclosed_backtick fs filename
  = mkRun (lines_output 1 0 lines ++ summary_output (total_backticks lines))
          None.
Proof.
  unfold find_unclosed_backtick. rewrite Hread. now rewrite scan_eq.
Qed.

(** The lines handed to the scanner hold exactly the backticks of the file. *)
Lemma open_readlines_backticks (bytes : list byte) :
  fs filename = Some bytes ->
  total_backticks lines = file_backticks bytes.
Proof.
  intros Hfile. pose proof Hread as H.
  unfold open_readlines in H. rewrite Hfile in H.
  destruct (decode bytes) as [text |] eqn:D; [| discriminate].
  injection H as <-.
  now rewrite readlines_backticks, (decode_backticks bytes text D).
Qed.

Lemma open_readlines_body :
  Forall (fun line => ~ In LF (line_body line)) lines.
Proof.
  pose proof Hread as H. unfold open_readlines in H.
  destruct (fs filename) as [bytes |]; [| discriminate].
  destruct (decode bytes) as [text |]; [| discriminate].
  injection H as <-. apply split_keepends_body.
Qed.

Lemma event_totals_run :
  event_totals (output (find_unclosed_backtick fs filename))
  = seq 1 (total_backticks lines).
Proof.
  rewrite output_of_lines. cbn [output].
  now rewrite event_totals_app, event_totals_lines_output,
    event_totals_summary, app_nil_r.
Qed.

Lemma warned_lines_run :
  warned_lines (output (find_unclosed_backtick fs filename))
  = filter (fun i => backtick_count (after_lines lines i) mod 2 =? 1)
           (seq 1 (List.length lines)).
Proof.
  rewrite output_of_lines. cbn [output].
  rewrite warned_lines_app, warned_lines_summary, app_nil_r,
    warned_lines_lines_output.
  apply filter_ext. intros i. rewrite counter_after_lines.
  now replace (i + 1 - 1) with i by lia.
Qed.

Lemma warned_lines_bound :
  List.length (warned_lines (output (find_unclosed_backtick fs filename)))
  <= List.length lines.
Proof.
  rewrite warned_lines_run.
  etransitivity; [apply filter_length_le | now rewrite length_seq].
Qed.

End SuccessfulRead.

(** ** Properties of a run *)

(** C1. For every file that is read successfully, the last message printed
    is the "OK" verdict exactly when the number of backticks of the file is
    even, and the "ERROR" verdict exactly when it is odd; neither verdict
    is printed anywhere else. *)
Theorem verdict_iff_parity
        (fs : filesystem) (filename : path)
        (bytes : list byte) (lines : list str) :
  fs filename = Some bytes ->
  open_readlines fs filename = inr lines ->
  total_backticks lines = file_backticks bytes
  /\ (verdict (output (find_unclosed_backtick fs filename)) = Some VerdictOK
      <-> Nat.even (file_backticks bytes) = true)
  /\ (verdict (output (find_unclosed_backtick fs filename)) = Some VerdictError
      <-> Nat.odd (file_backticks bytes) = true)
  /\ (In VerdictOK (output (find_unclosed_backtick fs filename))
      <-> Nat.even (file_backticks bytes) = true)
  /\ (In VerdictError (output (find_unclosed_backtick fs filename))
      <-> Nat.odd (file_backticks bytes) = true).
Proof.
  intros Hfile Hread.
  pose proof (open_readlines_backticks fs filename lines Hread bytes Hfile)
    as Htotal.
  rewrite (output_of_lines fs filename lines Hread). cbn [output].
  rewrite Htotal. split; [reflexivity |].
  unfold summary_output.
  destruct (parity_cases (file_backticks bytes)) as [-> ->].
  change [TotalBackticks (file_backticks bytes);
          if Nat.odd (file_backticks bytes) then VerdictError else VerdictOK]
    with ([TotalBackticks (file_backticks bytes)]
          ++ [if Nat.odd (file_backticks bytes) then VerdictError else VerdictOK]).
  rewrite app_assoc, verdict_last.
  assert (NoOK : ~ In VerdictOK (lines_output 1 0 lines))
    by now apply summary_not_in_loop.
  assert (NoErr : ~ In VerdictError (lines_output 1 0 lines))
    by now apply summary_not_in_loop.
  destruct (Nat.odd (file_backticks bytes)); cbn [negb];
    rewrite !in_app_iff; cbn [In]; repeat split;
    try discriminate; try reflexivity; intuition (congruence || discriminate).
Qed.

Lemma verdict_iff_parity_witness :
  single_file two_lines target = Some two_lines
  /\ open_readlines (single_file two_lines) target
     = inr [[96; 97; 10]; [98; 96]]%N
  /\ verdict (output (find_unclosed_backtick (single_file two_lines)
                                             target))
     = Some VerdictOK.
Proof.
  split; [reflexivity |]. split; [reflexivity |].
  apply (verdict_iff_parity (single_file two_lines) target
           two_lines [[96; 97; 10]; [98; 96]]%N); reflexivity.
Defined.

(** C2. The counter starts at zero; when the scan has processed the first
    [i] lines (a state the full scan does pass through), the counter is the
    number of backticks of those lines; it never decreases, from line to
    line or from character to character; and it ends at the number of
    backticks of all the lines. *)
Theorem counter_invariant (lines : list str) (i j : nat) :
  i <= j ->
  j <= List.length lines ->
  backtick_count initial = 0
  /\ exec (scan_lines lines) initial
     = exec (for_enumerate (1 + i) (skipn i lines) scan_line)
            (after_lines lines i)
  /\ backtick_count (after_lines lines i) = total_backticks (firstn i lines)
  /\ backtick_count (after_lines lines i)
     <= backtick_count (after_lines lines j)
  /\ (forall line_num char_pos char st,
         backtick_count st
         <= backtick_count (exec (scan_char line_num char_pos char) st))
  /\ backtick_count (scan lines) = total_backticks lines.
Proof.
  intros Hij Hj. repeat split.
  - unfold after_lines, scan_lines.
    rewrite <- (firstn_skipn i lines) at 1.
    rewrite for_enumerate_app, length_firstn.
    now rewrite Nat.min_l by lia.
  - apply counter_after_lines.
  - rewrite !counter_after_lines. now apply total_backticks_firstn_le.
  - intros line_num char_pos char st. rewrite exec_scan_char.
    destruct (char =? backtick)%N; cbn [backtick_count]; lia.
  - now rewrite scan_eq.
Qed.

Lemma counter_invariant_witness :
  1 <= 2
  /\ 2 <= List.length [[96; 97; 10]; [98; 96]]%N
  /\ backtick_count (after_lines [[96; 97; 10]; [98; 96]]%N 1)
     = total_backticks (firstn 1 [[96; 97; 10]; [98; 96]]%N).
Proof.
  split; [lia |]. split; [simpl; lia |].
  apply (counter_invariant [[96; 97; 10]; [98; 96]]%N 1 2); simpl; lia.
Defined.

(** C3. For every file that is read successfully, the run prints as many
    "Found backtick" lines as the file has backticks, and their totals are
    1, 2, 3, ... in the order printed: the k-th event reports total k. *)
Theorem events_count_up
        (fs : filesystem) (filename : path)
        (bytes : list byte) (lines : list str) :
  fs filename = Some bytes ->
  open_readlines fs filename = inr lines ->
  List.length (filter is_event (output (find_unclosed_backtick fs filename)))
  = file_backticks bytes
  /\ event_totals (output (find_unclosed_backtick fs filename))
     = seq 1 (file_backticks bytes)
  /\ (forall k total,
         nth_error (event_totals (output (find_unclosed_backtick fs filename))) k
         = Some total ->
         total = k + 1).
Proof.
  intros Hfile Hread.
  rewrite filter_is_event_length, (event_totals_run fs filename lines Hread).
  rewrite (open_readlines_backticks fs filename lines Hread bytes Hfile).
  repeat split.
  - apply length_seq.
  - intros k total Hk.
    assert (Hlt : k < file_backticks bytes).
    { rewrite <- (length_seq (file_backticks bytes) 1).
      apply nth_error_Some. congruence. }
    rewrite (nth_error_nth' _ 0) in Hk by (now rewrite length_seq).
    rewrite seq_nth in Hk by assumption.
    injection Hk as <-. lia.
Qed.

Lemma events_count_up_witness :
  single_file two_lines target = Some two_lines
  /\ open_readlines (single_file two_lines) target
     = inr [[96; 97; 10]; [98; 96]]%N
  /\ event_totals (output (find_unclosed_backtick (single_file two_lines) target))
     = seq 1 (file_backticks two_lines).
Proof.
  split; [reflexivity |]. split; [reflexivity |].
  apply (events_count_up (single_file two_lines) target
           two_lines [[96; 97; 10]; [98; 96]]%N); reflexivity.
Defined.

(** C4. For every file read successfully and every [i], the warning for
    line [i] is printed exactly when [i] is a line of the file and the
    counter is odd once line [i] has been processed, and never twice.  On
    the two lines "`a" and "b`" the run prints a warning for line 1 only
    and ends with the "OK" verdict. *)
Theorem warning_iff_odd
        (fs : filesystem) (filename : path) (lines : list str) (i : nat) :
  open_readlines fs filename = inr lines ->
  (In (UnclosedWarning i) (output (find_unclosed_backtick fs filename))
   <-> 1 <= i <= List.length lines
       /\ backtick_count (after_lines lines i) mod 2 = 1)
  /\ NoDup (warned_lines (output (find_unclosed_backtick fs filename)))
  /\ open_readlines (single_file two_lines) target
     = inr [[96; 97; 10]; [98; 96]]%N
  /\ output (find_unclosed_backtick (single_file two_lines) target)
     = [FoundBacktick 1 1 1; UnclosedWarning 1; FoundBacktick 2 2 2;
        TotalBackticks 2; VerdictOK].
Proof.
  intros Hread.
  split; [| split; [| split; reflexivity]].
  - rewrite In_warned_lines, (warned_lines_run fs filename lines Hread).
    rewrite filter_In, in_seq, Nat.eqb_eq.
    split; intros [Hi Hodd]; (split; [lia | exact Hodd]).
  - rewrite (warned_lines_run fs filename lines Hread).
    apply NoDup_filter, seq_NoDup.
Qed.

Lemma warning_iff_odd_witness :
  open_readlines (single_file two_lines) target
  = inr [[96; 97; 10]; [98; 96]]%N
  /\ In (UnclosedWarning 1)
        (output (find_unclosed_backtick (single_file two_lines) target))
  /\ ~ In (UnclosedWarning 2)
          (output (find_unclosed_backtick (single_file two_lines) target)).
Proof.
  split; [reflexivity |]. split.
  - apply (warning_iff_odd (single_file two_lines) target
             [[96; 97; 10]; [98; 96]]%N 1 eq_refl).
    split; [simpl; lia | reflexivity].
  - intros H.
    apply (warning_iff_odd (single_file two_lines) target
             [[96; 97; 10]; [98; 96]]%N 2 eq_refl) in H.
    destruct H as [_ H]. discriminate H.
Defined.

(** C5. For every file without a backtick that is read successfully (the
    empty file is one), the run prints exactly the total line with 0 and
    the "OK" verdict: no event and no warning. *)
Theorem no_backticks_quiet
        (fs : filesystem) (filename : path)
        (bytes : list byte) (lines : list str) :
  fs filename = Some bytes ->
  open_readlines fs filename = inr lines ->
  file_backticks bytes = 0 ->
  find_unclosed_backtick fs filename = mkRun [TotalBackticks 0; VerdictOK] None
  /\ filter is_event (output (find_unclosed_backtick fs filename)) = []
  /\ filter is_warning (output (find_unclosed_backtick fs filename)) = []
  /\ In (TotalBackticks 0) (output (find_unclosed_backtick fs filename))
  /\ verdict (output (find_unclosed_backtick fs filename)) = Some VerdictOK.
Proof.
  intros Hfile Hread Hzero.
  pose proof (open_readlines_backticks fs filename lines Hread bytes Hfile)
    as Htotal.
  rewrite (output_of_lines fs filename lines Hread).
  rewrite lines_output_none, Htotal, Hzero by congruence.
  cbn. intuition.
Qed.

Lemma no_backticks_quiet_witness :
  single_file [] target = Some []
  /\ open_readlines (single_file []) target = inr []
  /\ file_backticks [] = 0
  /\ find_unclosed_backtick (single_file []) target
     = mkRun [TotalBackticks 0; VerdictOK] None.
Proof.
  repeat (split; [reflexivity |]).
  apply (no_backticks_quiet (single_file []) target [] []); reflexivity.
Defined.

(** A call that raises has printed nothing: the file is read, and decoded,
    before the first [print]. *)
Lemma raised_without_output (fs : filesystem) (filename : path) (e : exception) :
  raised (find_unclosed_backtick fs filename) = Some e ->
  output (find_unclosed_backtick fs filename) = [].
Proof.
  unfold find_unclosed_backtick.
  destruct (open_readlines fs filename); [reflexivity | discriminate].
Qed.

(** C6. When the path cannot be opened, the call ends with the file-access
    error and nothing at all has been printed: no event, no warning, no
    total and no verdict.  *)
Theorem missing_file_prints_nothing (fs : filesystem) (filename : path) :
  fs filename = None ->
  find_unclosed_backtick fs filename = mkRun [] (Some OSError)
  /\ render (output (find_unclosed_backtick fs filename)) = EmptyString.
Proof.
  intros H. unfold find_unclosed_backtick, open_readlines. rewrite H.
  split; reflexivity.
Qed.

Lemma missing_file_prints_nothing_witness :
  single_file two_lines "missing.tsx"%string = None
  /\ find_unclosed_backtick (single_file two_lines) "missing.tsx"%string
     = mkRun [] (Some OSError).
Proof.
  split; [reflexivity |].
  apply (missing_file_prints_nothing (single_file two_lines) "missing.tsx"%string).
  reflexivity.
Defined.

(** C8, as the code has it.  For every file read successfully, the text
    written has one line per backtick, one line per warning (at most one
    for each input line) and three closing lines: an empty line, the total
    and the verdict, which the last two [print] calls write. *)
Theorem output_size
        (fs : filesystem) (filename : path)
        (bytes : list byte) (lines : list str) :
  fs filename = Some bytes ->
  open_readlines fs filename = inr lines ->
  count_lines (render (output (find_unclosed_backtick fs filename)))
  = file_backticks bytes
    + List.length (warned_lines (output (find_unclosed_backtick fs filename)))
    + 3
  /\ count_lines (render (output (find_unclosed_backtick fs filename)))
     <= file_backticks bytes + List.length lines + 3
  /\ List.length (output (find_unclosed_backtick fs filename))
     <= file_backticks bytes + List.length lines + 2
  /\ exists before,
       output (find_unclosed_backtick fs filename)
       = before ++ summary_output (file_backticks bytes)
       /\ count_lines (render (summary_output (file_backticks bytes))) = 3.
Proof.
  intros Hfile Hread.
  pose proof (warned_lines_bound fs filename lines Hread) as Hwarn.
  pose proof (event_totals_run fs filename lines Hread) as Hev.
  pose proof (open_readlines_backticks fs filename lines Hread bytes Hfile)
    as Htotal.
  rewrite (output_of_lines fs filename lines Hread) in *. cbn [output] in *.
  rewrite Htotal in *.
  rewrite event_totals_app, event_totals_summary, app_nil_r in Hev.
  rewrite warned_lines_app, warned_lines_summary, app_nil_r in *.
  destruct (count_lines_loop _ (lines_output_kind lines 1 0)) as [L1 L2].
  rewrite Hev, length_seq in L1, L2.
  assert (S3 : count_lines (render (summary_output (file_backticks bytes))) = 3).
  { unfold summary_output. cbn [render fold_right].
    rewrite !count_lines_app, !count_lines_printed_text.
    now destruct (_ =? 1). }
  rewrite render_app, count_lines_app, length_app, S3, L1, L2.
  repeat split; try (cbn [List.length summary_output]; lia).
  exists (lines_output 1 0 lines). now split.
Qed.

Lemma output_size_witness :
  single_file two_lines target = Some two_lines
  /\ open_readlines (single_file two_lines) target
     = inr [[96; 97; 10]; [98; 96]]%N
  /\ count_lines (render (output (find_unclosed_backtick
                                    (single_file two_lines) target)))
     <= file_backticks two_lines
        + List.length [[96; 97; 10]; [98; 96]]%N + 3.
Proof.
  split; [reflexivity |]. split; [reflexivity |].
  apply (output_size (single_file two_lines) target
           two_lines [[96; 97; 10]; [98; 96]]%N); reflexivity.
Defined.

(** The empty file: the run writes three lines, the empty one, the total
    and the verdict, one more than two closing lines allow. *)
Lemma empty_file_three_lines :
  open_readlines (single_file []) target = inr []
  /\ render (output (find_unclosed_backtick (single_file []) target))
     = String newline
         ("Total backticks: 0" ++ String newline
            ("OK: Even number of backticks" ++ String newline EmptyString))%string
  /\ ~ (count_lines (render (output (find_unclosed_backtick
                                       (single_file []) target)))
        <= file_backticks [] + List.length (@nil str) + 2).
Proof.
  split; [reflexivity |]. split; [reflexivity |].
  cbn. lia.
Qed.

(** C9. The parity check reads the cumulative counter, so a warning
    repeats: when the counter is odd after line [i] and lines [i+1 .. j]
    hold no backtick, every line from [i] to [j] gets its warning. *)
Theorem warning_cascade
        (fs : filesystem) (filename : path) (lines : list str) (i j : nat) :
  open_readlines fs filename = inr lines ->
  1 <= i -> i <= j -> j <= List.length lines ->
  backtick_count (after_lines lines i) mod 2 = 1 ->
  (forall k, i < k <= j -> count_backticks (nth (k - 1) lines []) = 0) ->
  forall k, i <= k <= j ->
    In (UnclosedWarning k) (output (find_unclosed_backtick fs filename)).
Proof.
  intros Hread Hi Hij Hj Hodd Hquiet k Hk.
  rewrite In_warned_lines, (warned_lines_run fs filename lines Hread).
  rewrite filter_In, in_seq, Nat.eqb_eq. split; [lia |].
  rewrite counter_after_lines in *.
  rewrite (quiet_lines_keep_total lines i k); [assumption | lia |].
  intros m Hm. apply Hquiet. lia.
Qed.

Lemma warning_cascade_witness :
  open_readlines (single_file dangling) target
  = inr [[96; 10]; [97; 10]; [98; 10]]%N
  /\ (forall k, 1 <= k <= 3 ->
        In (UnclosedWarning k)
           (output (find_unclosed_backtick (single_file dangling) target))).
Proof.
  split; [reflexivity |].
  apply (warning_cascade (single_file dangling) target
           [[96; 10]; [97; 10]; [98; 10]]%N 1 3).
  - reflexivity.
  - lia.
  - lia.
  - simpl; lia.
  - reflexivity.
  - intros k Hk.
    assert (E : k = 2 \/ k = 3) by lia.
    destruct E as [-> | ->]; reflexivity.
Defined.

(** C10.  [readlines] leaves the "\n" at the end of each line, and nowhere
    else in it; the scanner walks the whole line, yet every position it
    reports is the 1-based place of a backtick among the characters before
    the terminator, every such backtick is reported at its place, and the
    terminator itself leaves the counter and the output as they are. *)
Theorem positions_skip_terminator
        (fs : filesystem) (filename : path) (lines : list str) :
  open_readlines fs filename = inr lines ->
  Forall (fun line => line = line_body line ++ line_terminator line
                      /\ ~ In LF (line_body line)
                      /\ count_backticks (line_body line) = count_backticks line)
         lines
  /\ (forall n p t,
         In (FoundBacktick n p t) (output (find_unclosed_backtick fs filename)) ->
         1 <= n <= List.length lines
         /\ 1 <= p <= List.length (line_body (nth (n - 1) lines []))
         /\ nth_error (line_body (nth (n - 1) lines [])) (p - 1) = Some backtick)
  /\ (forall n k,
         1 <= n ->
         nth_error (line_body (nth (n - 1) lines [])) k = Some backtick ->
         In (n, k + 1)
            (event_positions (output (find_unclosed_backtick fs filename))))
  /\ (forall line_num char_pos st,
         exec (scan_char line_num char_pos LF) st = st).
Proof.
  intros Hread.
  pose proof (open_readlines_body fs filename lines Hread) as Hbody.
  rewrite (output_of_lines fs filename lines Hread). cbn [output].
  split; [| split; [| split]].
  - rewrite Forall_forall in *. intros line Hline. repeat split.
    + apply line_body_terminator.
    + now apply Hbody.
    + apply line_body_backticks.
  - intros n p t Hin. apply in_app_iff in Hin. destruct Hin as [Hin | Hin].
    + apply lines_output_sound in Hin. destruct Hin as (Hn & Hp & Hnth).
      apply line_body_keeps in Hnth; [| exact backtick_not_LF].
      assert (Hlen : p - 1 < List.length (line_body (nth (n - 1) lines [])))
        by (apply nth_error_Some; congruence).
      repeat split; (lia || assumption).
    + unfold summary_output in Hin. cbn [In] in Hin.
      destruct (_ =? 1); intuition discriminate.
  - intros n k Hn Hk. apply In_event_positions.
    apply line_body_prefix in Hk.
    destruct (lines_output_complete lines 1 0 n k Hn Hk) as [t Ht].
    exists t. apply in_app_iff. now left.
  - intros line_num char_pos st. now rewrite exec_scan_char.
Qed.

Lemma positions_skip_terminator_witness :
  open_readlines (single_file two_lines) target
  = inr [[96; 97; 10]; [98; 96]]%N
  /\ In (2, 2)
        (event_positions
           (output (find_unclosed_backtick (single_file two_lines) target))).
Proof.
  split; [reflexivity |].
  destruct (positions_skip_terminator (single_file two_lines) target
              [[96; 97; 10]; [98; 96]]%N eq_refl)
    as (_ & _ & Complete & _).
  apply (Complete 2 1); [lia | reflexivity].
Defined.

(** ** Further properties of the report *)

Section Report.

Lemma warning_in_run
      (fs : filesystem) (filename : path) (lines : list str) (i : nat) :
  open_readlines fs filename = inr lines ->
  In (UnclosedWarning i) (output (find_unclosed_backtick fs filename))
  <-> 1 <= i <= List.length lines
      /\ Nat.odd (total_backticks (firstn i lines)) = true.
Proof.
  intros Hread.
  rewrite In_warned_lines, (warned_lines_run fs filename lines Hread).
  rewrite filter_In, in_seq, counter_after_lines.
  destruct (parity_cases (total_backticks (firstn i lines))) as [-> _].
  intuition lia.
Qed.

Lemma last_seq_from_1 (n : nat) : last (seq 1 n) 0 = n.
Proof.
  destruct n as [| n]; [reflexivity |].
  rewrite seq_S. now rewrite last_last.
Qed.

Lemma loop_has_no_total (lines : list str) (line_num count : nat) :
  filter is_total (lines_output line_num count lines) = [].
Proof.
  pose proof (lines_output_kind lines line_num count) as K.
  induction K as [| m out Hm _ IH]; [reflexivity |].
  cbn [filter]. destruct m; try discriminate; exact IH.
Qed.

(** X1. For every file read successfully the report holds exactly one
    total line; the number on it is the number of backtick bytes of the
    file, which is also the total of the last event (0 when there is no
    event), and only the verdict follows it. *)
Theorem total_line_is_file_count
        (fs : filesystem) (filename : path)
        (bytes : list byte) (lines : list str) :
  fs filename = Some bytes ->
  open_readlines fs filename = inr lines ->
  filter is_total (output (find_unclosed_backtick fs filename))
  = [TotalBackticks (file_backticks bytes)]
  /\ last (event_totals (output (find_unclosed_backtick fs filename))) 0
     = file_backticks bytes
  /\ exists before v,
       output (find_unclosed_backtick fs filename)
       = before ++ [TotalBackticks (file_backticks bytes); v]
       /\ (v = VerdictOK \/ v = VerdictError).
Proof.
  intros Hfile Hread.
  pose proof (event_totals_run fs filename lines Hread) as Hev.
  rewrite (open_readlines_backticks fs filename lines Hread bytes Hfile) in Hev.
  rewrite Hev, last_seq_from_1.
  rewrite (output_of_lines fs filename lines Hread). cbn [output].
  rewrite (open_readlines_backticks fs filename lines Hread bytes Hfile).
  rewrite filter_app, loop_has_no_total.
  unfold summary_output. repeat split.
  - now destruct (_ =? 1).
  - exists (lines_output 1 0 lines). eexists. split; [reflexivity |].
    destruct (_ =? 1); auto.
Qed.

Lemma total_line_is_file_count_witness :
  single_file two_lines target = Some two_lines
  /\ open_readlines (single_file two_lines) target
     = inr [[96; 97; 10]; [98; 96]]%N
  /\ filter is_total (output (find_unclosed_backtick (single_file two_lines) target))
     = [TotalBackticks 2].
Proof.
  split; [reflexivity |]. split; [reflexivity |].
  apply (total_line_is_file_count (single_file two_lines) target
           two_lines [[96; 97; 10]; [98; 96]]%N); reflexivity.
Defined.

Lemma char_events_total (line_num : nat) (line : str) :
  forall char_pos count n p t,
    In (FoundBacktick n p t) (char_events line_num char_pos count line) ->
    t = count + count_backticks (firstn (p - char_pos) line).
Proof.
  induction line as [| char rest IH]; intros char_pos count n p t Hin;
    [contradiction |].
  pose proof (char_events_sound line_num (char :: rest) char_pos count n p t Hin)
    as (_ & Hp & _).
  replace (p - char_pos) with (S (p - S char_pos)) by lia.
  rewrite firstn_cons, count_backticks_cons.
  cbn [char_events] in Hin. destruct (char =? backtick)%N.
  - destruct Hin as [Heq | Hin].
    + injection Heq as <- <- <-.
      replace (char_pos + 1 - S char_pos) with 0 by lia.
      cbn [firstn]. change (count_backticks []) with 0. lia.
    + apply IH in Hin. lia.
  - apply IH in Hin. lia.
Qed.

Lemma lines_output_total (lines : list str) :
  forall line_num count n p t,
    In (FoundBacktick n p t) (lines_output line_num count lines) ->
    t = count + total_backticks (firstn (n - line_num) lines)
        + count_backticks (firstn p (nth (n - line_num) lines [])).
Proof.
  induction lines as [| line rest IH]; intros line_num count n p t Hin;
    [contradiction |].
  pose proof (lines_output_sound (line :: rest) line_num count n p t Hin)
    as (Hn & _ & _).
  cbn [lines_output] in Hin. unfold line_output, line_warning in Hin.
  rewrite !in_app_iff in Hin. destruct Hin as [[Hin | Hin] | Hin].
  - pose proof (char_events_sound line_num line 0 count n p t Hin)
      as (-> & _ & _).
    apply char_events_total in Hin.
    rewrite Nat.sub_diag, Nat.sub_0_r in *. cbn [firstn nth].
    change (total_backticks []) with 0. lia.
  - destruct (_ =? 1); [destruct Hin as [Hin | []]; discriminate | contradiction].
  - pose proof (lines_output_sound rest (S line_num) _ n p t Hin) as (Hn' & _ & _).
    apply IH in Hin.
    replace (n - line_num) with (S (n - S line_num)) by lia.
    rewrite firstn_cons, total_backticks_cons. cbn [nth]. lia.
Qed.

(** X2. The total an event reports is a running count: the backticks of
    all earlier lines plus those of its own line up to and including the
    reported position. *)
Theorem event_total_is_running_count
        (fs : filesystem) (filename : path) (lines : list str)
        (n p t : nat) :
  open_readlines fs filename = inr lines ->
  In (FoundBacktick n p t) (output (find_unclosed_backtick fs filename)) ->
  t = total_backticks (firstn (n - 1) lines)
      + count_backticks (firstn p (nth (n - 1) lines [])).
Proof.
  intros Hread Hin.
  rewrite (output_of_lines fs filename lines Hread) in Hin. cbn [output] in Hin.
  apply in_app_iff in Hin. destruct Hin as [Hin | Hin].
  - apply lines_output_total in Hin. lia.
  - unfold summary_output in Hin. cbn [In] in Hin.
    destruct (_ =? 1); intuition discriminate.
Qed.

Lemma event_total_is_running_count_witness :
  open_readlines (single_file two_lines) target
  = inr [[96; 97; 10]; [98; 96]]%N
  /\ In (FoundBacktick 2 2 2)
        (output (find_unclosed_backtick (single_file two_lines) target))
  /\ 2 = total_backticks (firstn (2 - 1) [[96; 97; 10]; [98; 96]]%N)
         + count_backticks (firstn 2 (nth (2 - 1) [[96; 97; 10]; [98; 96]]%N [])).
Proof.
  split; [reflexivity |]. split; [cbn; auto |].
  apply (event_total_is_running_count (single_file two_lines) target
           [[96; 97; 10]; [98; 96]]%N 2 2 2); [reflexivity | cbn; auto].
Defined.

End Report.

Section Order.

Lemma StronglySorted_app {A} (R : A -> A -> Prop) (xs ys : list A) :
  StronglySorted R xs -> StronglySorted R ys ->
  (forall x y, In x xs -> In y ys -> R x y) ->
  StronglySorted R (xs ++ ys).
Proof.
  induction 1 as [| x xs Hs IH Hx]; intros Hys Hcross; [assumption |].
  cbn [app]. constructor.
  - apply IH; [assumption |]. intros a b Ha Hb. apply Hcross; [now right | assumption].
  - apply Forall_app. split; [assumption |].
    apply Forall_forall. intros y Hy. apply Hcross; [now left | assumption].
Qed.

Lemma char_events_sorted (line_num : nat) (line : str) :
  forall char_pos count,
    StronglySorted precedes (char_events line_num char_pos count line).
Proof.
  induction line as [| char rest IH]; intros char_pos count; [constructor |].
  cbn [char_events]. destruct (char =? backtick)%N; [| apply IH].
  constructor; [apply IH |].
  apply Forall_forall. intros m Hm.
  pose proof (char_events_kind line_num rest (S char_pos) (count + 1)) as K.
  rewrite Forall_forall in K. specialize (K m Hm).
  destruct m as [n p t | | | |]; try discriminate.
  apply char_events_sound in Hm. destruct Hm as (-> & Hp & _).
  cbn. right. split; [reflexivity | lia].
Qed.

(** The messages of a run of lines name lines of that run only. *)
Lemma lines_output_range (lines : list str) :
  forall line_num count m,
    In m (lines_output line_num count lines) ->
    match m with
    | FoundBacktick n _ _ | UnclosedWarning n =>
        line_num <= n < line_num + List.length lines
    | _ => False
    end.
Proof.
  induction lines as [| line rest IH]; intros line_num count m Hin;
    [contradiction |].
  cbn [lines_output] in Hin. unfold line_output, line_warning in Hin.
  rewrite !in_app_iff in Hin. cbn [List.length].
  destruct Hin as [[Hin | Hin] | Hin].
  - pose proof (char_events_kind line_num line 0 count) as K.
    rewrite Forall_forall in K. specialize (K m Hin).
    destruct m as [n p t | | | |]; try discriminate.
    apply char_events_sound in Hin. lia.
  - destruct (_ =? 1); [| contradiction].
    destruct Hin as [<- | []]. lia.
  - apply IH in Hin. destruct m; try contradiction; lia.
Qed.

Lemma line_output_sorted (line_num count : nat) (line : str) :
  StronglySorted precedes (line_output line_num count line)
  /\ forall m, In m (line_output line_num count line) ->
               match m with
               | FoundBacktick n _ _ | UnclosedWarning n => n = line_num
               | _ => False
               end.
Proof.
  unfold line_output, line_warning. split.
  - apply StronglySorted_app.
    + apply char_events_sorted.
    + destruct (_ =? 1); repeat constructor.
    + intros x y Hx Hy.
      destruct (_ =? 1); [| contradiction]. destruct Hy as [<- | []].
      pose proof (char_events_kind line_num line 0 count) as K.
      rewrite Forall_forall in K. specialize (K x Hx).
      destruct x as [n p t | | | |]; try discriminate.
      apply char_events_sound in Hx. cbn. lia.
  - intros m Hin. apply in_app_iff in Hin. destruct Hin as [Hin | Hin].
    + pose proof (char_events_kind line_num line 0 count) as K.
      rewrite Forall_forall in K. specialize (K m Hin).
      destruct m as [n p t | | | |]; try discriminate.
      now apply char_events_sound in Hin.
    + destruct (_ =? 1); [| contradiction]. now destruct Hin as [<- | []].
Qed.

Lemma lines_output_sorted (lines : list str) :
  forall line_num count,
    StronglySorted precedes (lines_output line_num count lines).
Proof.
  induction lines as [| line rest IH]; intros line_num count; [constructor |].
  cbn [lines_output].
  destruct (line_output_sorted line_num count line) as [Hs Hl].
  apply StronglySorted_app; [assumption | apply IH |].
  intros x y Hx Hy. apply Hl in Hx. apply lines_output_range in Hy.
  destruct x, y; try contradiction; cbn; lia.
Qed.

(** X3. The report is in file order: events by line and then by position,
    the warning of a line after the events of that line and before
    anything of a later line, then the total, then the verdict. *)
Theorem report_in_file_order
        (fs : filesystem) (filename : path) (lines : list str) :
  open_readlines fs filename = inr lines ->
  StronglySorted precedes (output (find_unclosed_backtick fs filename)).
Proof.
  intros Hread. rewrite (output_of_lines fs filename lines Hread).
  cbn [output]. apply StronglySorted_app.
  - apply lines_output_sorted.
  - unfold summary_output.
    destruct (_ =? 1); repeat constructor.
  - intros x y Hx Hy. apply lines_output_range in Hx.
    unfold summary_output in Hy. cbn [In] in Hy.
    destruct Hy as [<- | [<- | []]];
      destruct x; try contradiction;
      try destruct (total_backticks lines mod 2 =? 1); exact I.
Qed.

Lemma report_in_file_order_witness :
  open_readlines (single_file two_lines) target
  = inr [[96; 97; 10]; [98; 96]]%N
  /\ StronglySorted precedes
       [FoundBacktick 1 1 1; UnclosedWarning 1; FoundBacktick 2 2 2;
        TotalBackticks 2; VerdictOK].
Proof.
  split; [reflexivity |].
  apply (report_in_file_order (single_file two_lines) target
           [[96; 97; 10]; [98; 96]]%N).
  reflexivity.
Defined.

End Order.

Section Parity.

(** X4. The warnings follow the parity of each line: line [n] is warned
    about while line [n - 1] is not, or the other way round, exactly when
    line [n] holds an odd number of backticks. *)
Theorem warning_flips_on_odd_line
        (fs : filesystem) (filename : path) (lines : list str) (n : nat) :
  open_readlines fs filename = inr lines ->
  1 <= n <= List.length lines ->
  Nat.odd (count_backticks (nth (n - 1) lines [])) = true
  <-> (In (UnclosedWarning n) (output (find_unclosed_backtick fs filename))
       <-> ~ In (UnclosedWarning (n - 1))
               (output (find_unclosed_backtick fs filename))).
Proof.
  intros Hread Hn.
  rewrite !(warning_in_run fs filename lines _ Hread).
  assert (E : total_backticks (firstn n lines)
              = total_backticks (firstn (n - 1) lines)
                + count_backticks (nth (n - 1) lines [])).
  { rewrite <- total_backticks_firstn_S. do 2 f_equal. lia. }
  rewrite E, Nat.odd_add. clear E.
  assert (Z : n - 1 = 0 -> Nat.odd (total_backticks (firstn (n - 1) lines)) = false)
    by (intros ->; reflexivity).
  destruct (Nat.odd (total_backticks (firstn (n - 1) lines))) eqn:A,
           (Nat.odd (count_backticks (nth (n - 1) lines []))) eqn:B;
    cbn [xorb]; split; try discriminate; try reflexivity.
  - intros _. split; [intros [_ H]; discriminate | intros H].
    exfalso. apply H. split; [| reflexivity].
    destruct (Nat.eq_dec (n - 1) 0) as [E | E]; [apply Z in E; discriminate | lia].
  - intros [H _]. exfalso.
    assert (W : 1 <= n <= List.length lines /\ true = true) by (split; [lia | reflexivity]).
    apply H in W. apply W. split; [| reflexivity].
    destruct (Nat.eq_dec (n - 1) 0) as [E | E]; [apply Z in E; discriminate | lia].
  - intros _. split; [intros _ [_ H]; discriminate | intros _].
    split; [lia | reflexivity].
  - intros [_ H]. exfalso.
    assert (W : ~ (1 <= n - 1 <= List.length lines /\ false = true))
      by (intros [_ F]; discriminate).
    apply H in W. destruct W as [_ W]. discriminate.
Qed.

Lemma warning_flips_on_odd_line_witness :
  open_readlines (single_file two_lines) target
  = inr [[96; 97; 10]; [98; 96]]%N
  /\ 1 <= 2 <= List.length [[96; 97; 10]; [98; 96]]%N
  /\ (Nat.odd (count_backticks (nth (2 - 1) [[96; 97; 10]; [98; 96]]%N [])) = true
      <-> (In (UnclosedWarning 2)
              (output (find_unclosed_backtick (single_file two_lines) target))
           <-> ~ In (UnclosedWarning (2 - 1))
                   (output (find_unclosed_backtick (single_file two_lines) target)))).
Proof.
  split; [reflexivity |]. split; [simpl; lia |].
  apply (warning_flips_on_odd_line (single_file two_lines) target
           [[96; 97; 10]; [98; 96]]%N 2); [reflexivity | simpl; lia].
Defined.

(** X5. The verdict is "ERROR" exactly when the last line of the file
    carries a warning; a file that gets no warning at all gets "OK". *)
Theorem error_iff_last_line_warned
        (fs : filesystem) (filename : path) (lines : list str) :
  open_readlines fs filename = inr lines ->
  (In (UnclosedWarning (List.length lines))
      (output (find_unclosed_backtick fs filename))
   <-> verdict (output (find_unclosed_backtick fs filename)) = Some VerdictError)
  /\ (warned_lines (output (find_unclosed_backtick fs filename)) = [] ->
      verdict (output (find_unclosed_backtick fs filename)) = Some VerdictOK).
Proof.
  intros Hread.
  assert (V : verdict (output (find_unclosed_backtick fs filename))
              = Some (if Nat.odd (total_backticks lines)
                      then VerdictError else VerdictOK)).
  { rewrite (output_of_lines fs filename lines Hread). cbn [output].
    unfold summary_output.
    destruct (parity_cases (total_backticks lines)) as [-> _].
    change [TotalBackticks (total_backticks lines);
            if Nat.odd (total_backticks lines) then VerdictError else VerdictOK]
      with ([TotalBackticks (total_backticks lines)]
            ++ [if Nat.odd (total_backticks lines) then VerdictError else VerdictOK]).
    now rewrite app_assoc, verdict_last. }
  assert (W : In (UnclosedWarning (List.length lines))
                 (output (find_unclosed_backtick fs filename))
              <-> 1 <= List.length lines /\ Nat.odd (total_backticks lines) = true).
  { rewrite (warning_in_run fs filename lines _ Hread), firstn_all. intuition lia. }
  assert (E : lines = [] -> Nat.odd (total_backticks lines) = false)
    by (intros ->; reflexivity).
  split.
  - rewrite W, V. destruct (Nat.odd (total_backticks lines)) eqn:O.
    + split; [reflexivity | intros _; split; [| reflexivity]].
      destruct lines; [specialize (E eq_refl); discriminate | simpl; lia].
    + split; [intros [_ H]; discriminate | discriminate].
  - intros Hnone. rewrite V.
    destruct (Nat.odd (total_backticks lines)) eqn:O; [| reflexivity].
    exfalso.
    assert (H : In (List.length lines)
                   (warned_lines (output (find_unclosed_backtick fs filename)))).
    { apply In_warned_lines, W. split; [| reflexivity].
      destruct lines; [specialize (E eq_refl); discriminate | simpl; lia]. }
    rewrite Hnone in H. contradiction.
Qed.

Lemma error_iff_last_line_warned_witness :
  open_readlines (single_file dangling) target
  = inr [[96; 10]; [97; 10]; [98; 10]]%N
  /\ verdict (output (find_unclosed_backtick (single_file dangling) target))
     = Some VerdictError.
Proof.
  split; [reflexivity |].
  apply (error_iff_last_line_warned (single_file dangling) target
           [[96; 10]; [97; 10]; [98; 10]]%N eq_refl).
  cbn. auto.
Defined.

End Parity.

Section Composition.

Lemma lines_output_app (xs ys : list str) :
  forall line_num count,
    lines_output line_num count (xs ++ ys)
    = lines_output line_num count xs
      ++ lines_output (line_num + List.length xs)
                      (count + total_backticks xs) ys.
Proof.
  induction xs as [| line rest IH]; intros line_num count.
  - cbn. change (total_backticks []) with 0. now rewrite !Nat.add_0_r.
  - cbn [app lines_output List.length]. rewrite IH, total_backticks_cons.
    rewrite <- app_assoc. do 2 f_equal. f_equal; lia.
Qed.

Lemma char_events_shift (d c : nat) (line : str) :
  forall line_num char_pos count,
    char_events (line_num + d) char_pos (count + c) line
    = map (shift d c) (char_events line_num char_pos count line).
Proof.
  induction line as [| char rest IH]; intros line_num char_pos count;
    [reflexivity |].
  cbn [char_events]. destruct (char =? backtick)%N.
  - cbn [map shift]. rewrite <- IH. do 2 f_equal; lia.
  - apply IH.
Qed.

Lemma line_warning_shift (d c line_num count : nat) :
  Nat.even c = true ->
  line_warning (line_num + d) (count + c)
  = map (shift d c) (line_warning line_num count).
Proof.
  intros Hc. unfold line_warning.
  destruct (parity_cases (count + c)) as [-> _].
  destruct (parity_cases count) as [-> _].
  rewrite Nat.odd_add, <- (Nat.negb_even c), Hc, xorb_false_r.
  now destruct (Nat.odd count).
Qed.

Lemma lines_output_shift (d c : nat) (lines : list str) :
  Nat.even c = true ->
  forall line_num count,
    lines_output (line_num + d) (count + c) lines
    = map (shift d c) (lines_output line_num count lines).
Proof.
  intros Hc. induction lines as [| line rest IH]; intros line_num count;
    [reflexivity |].
  cbn [lines_output]. unfold line_output.
  rewrite !map_app, <- char_events_shift, <- line_warning_shift by assumption.
  rewrite <- (IH (S line_num)).
  replace (count + c + count_backticks line)
    with (count + count_backticks line + c) by lia.
  reflexivity.
Qed.

(** X7. The scan of a file whose first lines hold an even number of
    backticks splits in two: the loops print what they print for the first
    lines alone, then what they print for the remaining lines alone, with
    the line numbers of those moved down by the number of lines before
    them and their totals raised by the backticks before them. *)
Theorem even_prefix_composes (first rest : list str) :
  Nat.even (total_backticks first) = true ->
  stdout (exec (scan_lines (first ++ rest)) initial)
  = stdout (exec (scan_lines first) initial)
    ++ map (shift (List.length first) (total_backticks first))
           (stdout (exec (scan_lines rest) initial)).
Proof.
  intros Heven. unfold scan_lines. rewrite !exec_outer.
  cbn [stdout backtick_count initial app Nat.add].
  rewrite lines_output_app. f_equal.
  now rewrite <- (lines_output_shift (List.length first) (total_backticks first)
                    rest Heven 1 0).
Qed.

Lemma even_prefix_composes_witness :
  Nat.even (total_backticks [[96; 96; 10]]%N) = true
  /\ stdout (exec (scan_lines ([[96; 96; 10]] ++ [[96; 97; 10]; [98; 96]])%N)
                  initial)
     = [FoundBacktick 1 1 1; FoundBacktick 1 2 2]
       ++ map (shift 1 2)
              [FoundBacktick 1 1 1; UnclosedWarning 1; FoundBacktick 2 2 2].
Proof.
  split; [reflexivity |].
  apply (even_prefix_composes [[96; 96; 10]]%N [[96; 97; 10]; [98; 96]]%N).
  reflexivity.
Defined.

(** X8. Each loop keeps the counter equal to the number of events printed
    so far, from any state in which it holds; so does the summary, which
    prints no event. *)
Theorem counter_matches_events
        (st : state) (line_num char_pos : nat) (char : codepoint)
        (line : str) (lines : list str) :
  consistent st ->
  consistent initial
  /\ consistent (exec (scan_char line_num char_pos char) st)
  /\ consistent (exec (scan_line line_num line) st)
  /\ consistent (exec (for_enumerate line_num lines scan_line) st)
  /\ consistent (exec summary st).
Proof.
  unfold consistent. intros H. split; [reflexivity |].
  rewrite exec_scan_char, exec_scan_line, exec_outer, exec_summary.
  cbn [backtick_count stdout]. repeat split.
  - destruct (char =? backtick)%N; [| assumption].
    cbn [backtick_count stdout]. rewrite event_totals_app, length_app, H.
    reflexivity.
  - unfold line_output.
    rewrite !event_totals_app, event_totals_char_events,
      event_totals_line_warning, !length_app, length_seq, H.
    cbn [List.length]. lia.
  - rewrite event_totals_app, event_totals_lines_output, length_app,
      length_seq, H. reflexivity.
  - rewrite event_totals_app, event_totals_summary, app_nil_r. assumption.
Qed.

Lemma counter_matches_events_witness :
  consistent (mkState 1 [FoundBacktick 1 1 1])
  /\ consistent (exec (scan_line 2 [98; 96]%N)
                      (mkState 1 [FoundBacktick 1 1 1])).
Proof.
  split; [reflexivity |].
  apply (counter_matches_events (mkState 1 [FoundBacktick 1 1 1])
           2 0 backtick [98; 96]%N []).
  reflexivity.
Defined.

End Composition.

Section Text.

Lemma count_lines_format (m : message) :
  count_lines (format m) = if is_total m then 1 else 0.
Proof.
  pose proof (count_lines_printed_text m) as H.
  unfold printed_text in H. rewrite count_lines_app in H.
  cbn [count_lines] in H. rewrite Ascii.eqb_refl in H.
  destruct m; cbn [is_total]; lia.
Qed.

(** Two texts without a line terminator, each followed by one, can be
    told apart from what follows them. *)
Lemma cut_at_newline (s1 : string) :
  forall s2 r1 r2,
    count_lines s1 = 0 -> count_lines s2 = 0 ->
    (s1 ++ String newline r1 = s2 ++ String newline r2)%string ->
    s1 = s2 /\ r1 = r2.
Proof.
  induction s1 as [| c1 s1 IH]; intros [| c2 s2] r1 r2 H1 H2 E;
    cbn [String.append count_lines] in *.
  - injection E as ->. now split.
  - injection E as <- _. rewrite Ascii.eqb_refl in H2. discriminate H2.
  - injection E as -> _. rewrite Ascii.eqb_refl in H1. discriminate H1.
  - injection E as -> E.
    destruct (IH s2 r1 r2) as [-> ->]; [lia | lia | assumption | now split].
Qed.

Lemma render_cons (m : message) (out : list message) :
  render (m :: out) = (format m ++ String newline (render out))%string.
Proof.
  cbn [render fold_right]. fold (render out). unfold printed_text.
  now rewrite string_app_assoc.
Qed.

Lemma format_starts (m : message) :
  exists c rest, format m = String c rest
                 /\ (c = newline <-> is_total m = true).
Proof.
  destruct m; cbn [format String.append is_total];
    eexists; eexists; (split; [reflexivity |]);
    split; try discriminate; reflexivity.
Qed.

(** X9. The text on standard output determines the messages printed: two
    sequences of [print] calls that write the same text are the same
    sequence, number for number. *)
Theorem render_injective (out1 : list message) :
  forall out2, render out1 = render out2 -> out1 = out2.
Proof.
  induction out1 as [| m1 out1 IH]; intros [| m2 out2] E.
  - reflexivity.
  - apply (f_equal count_lines) in E. rewrite render_cons, count_lines_app in E.
    cbn in E. lia.
  - apply (f_equal count_lines) in E. rewrite render_cons, count_lines_app in E.
    cbn in E. lia.
  - rewrite !render_cons in E.
    pose proof (count_lines_format m1) as L1.
    pose proof (count_lines_format m2) as L2.
    destruct (format_starts m1) as (c1 & f1 & F1 & T1).
    destruct (format_starts m2) as (c2 & f2 & F2 & T2).
    assert (C : c1 = c2).
    { rewrite F1, F2 in E. cbn [String.append] in E. now injection E. }
    subst c2.
    destruct (is_total m1) eqn:I1, (is_total m2) eqn:I2.
    + destruct m1 as [| | t1 | |], m2 as [| | t2 | |]; try discriminate.
      cbn [format String.append] in E. injection E as E.
      apply cut_at_newline in E; try apply count_lines_decimal.
      destruct E as [Ef Er].
      apply decimal_injective in Ef. subst t2. f_equal. now apply IH.
    + destruct T1 as [_ T1], T2 as [T2 _].
      rewrite T1 in T2 by reflexivity. specialize (T2 eq_refl). discriminate.
    + destruct T1 as [T1 _], T2 as [_ T2].
      rewrite T2 in T1 by reflexivity. specialize (T1 eq_refl). discriminate.
    + apply cut_at_newline in E; [| assumption | assumption].
      destruct E as [Ef Er]. apply format_injective in Ef. subst m2.
      f_equal. now apply IH.
Qed.

End Text.

Lemma render_injective_witness :
  render (output (find_unclosed_backtick (single_file two_lines) target))
  = render [FoundBacktick 1 1 1; UnclosedWarning 1; FoundBacktick 2 2 2;
            TotalBackticks 2; VerdictOK]
  /\ output (find_unclosed_backtick (single_file two_lines) target)
     = [FoundBacktick 1 1 1; UnclosedWarning 1; FoundBacktick 2 2 2;
        TotalBackticks 2; VerdictOK].
Proof.
  split; [reflexivity |].
  apply (render_injective
           (output (find_unclosed_backtick (single_file two_lines) target))).
  reflexivity.
Defined.

Section Reading.

Lemma concat_split_keepends (text : str) :
  List.concat (split_keepends text) = text.
Proof.
  induction text as [| c rest IH]; [reflexivity |].
  cbn [split_keepends]. destruct (c =? LF)%N.
  - cbn [List.concat app]. now rewrite IH.
  - destruct (split_keepends rest) as [| line lines].
    + cbn in IH. subst rest. reflexivity.
    + cbn [List.concat app] in *. now rewrite IH.
Qed.

Lemma split_keepends_nonempty (text : str) :
  Forall (fun line => line <> []) (split_keepends text).
Proof.
  induction text as [| c rest IH]; [constructor |].
  cbn [split_keepends]. destruct (c =? LF)%N.
  - constructor; [discriminate | assumption].
  - destruct (split_keepends rest) as [| line lines].
    + repeat constructor. discriminate.
    + inversion IH; subst. constructor; [discriminate | assumption].
Qed.

Lemma line_terminator_cons (c : codepoint) (line : str) :
  line_terminator line = [LF] -> line_terminator (c :: line) = [LF].
Proof.
  unfold line_terminator. destruct line as [| c' line']; [discriminate |].
  intros H. exact H.
Qed.

Lemma split_keepends_terminated (text : str) :
  Forall (fun line => line_terminator line = [LF])
         (removelast (split_keepends text)).
Proof.
  induction text as [| c rest IH]; [constructor |].
  cbn [split_keepends]. destruct (c =? LF)%N eqn:E.
  - apply N.eqb_eq in E. subst c.
    destruct (split_keepends rest) as [| line lines]; [constructor |].
    change (removelast ([LF] :: line :: lines))
      with ([LF] :: removelast (line :: lines)).
    constructor; [reflexivity | assumption].
  - destruct (split_keepends rest) as [| line lines]; [constructor |].
    destruct lines as [| line' lines']; [constructor |].
    change (removelast ((c :: line) :: line' :: lines'))
      with ((c :: line) :: removelast (line' :: lines')).
    change (removelast (line :: line' :: lines'))
      with (line :: removelast (line' :: lines')) in IH.
    inversion IH; subst.
    constructor; [now apply line_terminator_cons | assumption].
Qed.

Lemma translate_newlines_no_CR :
  forall n text,
    List.length text <= n -> ~ In CR (translate_newlines text).
Proof.
  induction n as [| n IH]; intros text Hlen.
  - destruct text; [intros [] | simpl in Hlen; lia].
  - destruct text as [| c rest]; [intros [] |].
    simpl in Hlen. cbn [translate_newlines].
    destruct (N.eqb_spec c CR) as [-> | Hc].
    + destruct rest as [| c' rest']; [cbn; intuition discriminate |].
      simpl in Hlen.
      destruct (c' =? LF)%N; cbn [In]; intros [H | H]; try discriminate;
        revert H; apply IH; simpl; lia.
    + cbn [In]. intros [H | H]; [congruence |].
      revert H. apply IH. lia.
Qed.

Lemma translate_newlines_id (text : str) :
  ~ In CR text -> translate_newlines text = text.
Proof.
  induction text as [| c rest IH]; intros H; [reflexivity |].
  cbn [translate_newlines]. cbn [In] in H.
  destruct (N.eqb_spec c CR) as [-> | _]; [tauto |].
  f_equal. apply IH. tauto.
Qed.

(** X10. [readlines] loses nothing and cuts after every line terminator:
    its lines, joined, are the text with "\r\n" and "\r" read as "\n"; no
    "\r" is left; no line is empty; every line but the last ends with
    "\n"; and a text without "\r" comes back as it was. *)
Theorem readlines_keeps_text (text : str) :
  List.concat (readlines text) = translate_newlines text
  /\ ~ In CR (List.concat (readlines text))
  /\ Forall (fun line => line <> []) (readlines text)
  /\ Forall (fun line => line_terminator line = [LF])
            (removelast (readlines text))
  /\ (~ In CR text -> List.concat (readlines text) = text).
Proof.
  unfold readlines. rewrite concat_split_keepends. repeat split.
  - apply (translate_newlines_no_CR (List.length text)). lia.
  - apply split_keepends_nonempty.
  - apply split_keepends_terminated.
  - apply translate_newlines_id.
Qed.

Lemma utf8_decode_ascii (bs : list N) :
  Forall (fun b => (b < 0x80)%N) bs -> utf8_decode bs = Some bs.
Proof.
  induction 1 as [| b bs Hb _ IH]; [reflexivity |].
  cbn [utf8_decode]. apply N.ltb_lt in Hb. now rewrite Hb, IH.
Qed.

(** X11. A file of ASCII bytes is always read: the call does not raise,
    and the lines scanned are the bytes of the file, cut into lines. *)
Theorem ascii_file_is_read
        (fs : filesystem) (filename : path) (bytes : list byte) :
  fs filename = Some bytes ->
  Forall (fun b => (Byte.to_N b < 0x80)%N) bytes ->
  open_readlines fs filename = inr (readlines (map Byte.to_N bytes))
  /\ raised (find_unclosed_backtick fs filename) = None.
Proof.
  intros Hfile Hascii.
  assert (E : open_readlines fs filename
              = inr (readlines (map Byte.to_N bytes))).
  { unfold open_readlines, decode. rewrite Hfile, utf8_decode_ascii;
      [reflexivity |].
    now apply Forall_map. }
  split; [exact E |].
  unfold find_unclosed_backtick. now rewrite E.
Qed.

Lemma ascii_file_is_read_witness :
  single_file two_lines target = Some two_lines
  /\ Forall (fun b => (Byte.to_N b < 0x80)%N) two_lines
  /\ raised (find_unclosed_backtick (single_file two_lines) target) = None.
Proof.
  split; [reflexivity |]. split; [repeat constructor |].
  apply (ascii_file_is_read (single_file two_lines) target two_lines);
    [reflexivity | repeat constructor].
Defined.

End Reading.

Section PerLine.

Lemma event_positions_length (out : list message) :
  List.length (event_positions out) = List.length (event_totals out).
Proof.
  induction out as [| m out IH]; [reflexivity |].
  destruct m; cbn; auto.
Qed.

Lemma event_positions_char_events (line_num : nat) (line : str) :
  forall char_pos count,
    Forall (fun lp => fst lp = line_num)
           (event_positions (char_events line_num char_pos count line)).
Proof.
  induction line as [| char rest IH]; intros char_pos count; [constructor |].
  cbn [char_events]. destruct (char =? backtick)%N; [| apply IH].
  cbn. constructor; [reflexivity | apply IH].
Qed.

Lemma filter_same_line (n line_num : nat) (ps : list (nat * nat)) :
  Forall (fun lp => fst lp = line_num) ps ->
  List.length (filter (fun lp => fst lp =? n) ps)
  = if line_num =? n then List.length ps else 0.
Proof.
  induction 1 as [| lp ps Hlp _ IH]; [now destruct (line_num =? n) |].
  cbn [filter]. rewrite Hlp.
  destruct (line_num =? n); cbn [List.length]; now rewrite IH.
Qed.

Lemma filter_none {A} (f : A -> bool) (xs : list A) :
  (forall x, In x xs -> f x = false) -> filter f xs = [].
Proof.
  induction xs as [| x xs IH]; intros H; [reflexivity |].
  cbn [filter]. rewrite (H x) by now left.
  apply IH. intros y Hy. apply H. now right.
Qed.

Lemma event_positions_line_warning (line_num count : nat) :
  event_positions (line_warning line_num count) = [].
Proof. unfold line_warning. now destruct (_ =? 1). Qed.

Lemma event_positions_app (xs ys : list message) :
  event_positions (xs ++ ys) = event_positions xs ++ event_positions ys.
Proof. apply flat_map_app. Qed.

Lemma events_on_line_lines_output (lines : list str) :
  forall line_num count n,
    line_num <= n ->
    events_on_line (lines_output line_num count lines) n
    = count_backticks (nth (n - line_num) lines []).
Proof.
  unfold events_on_line.
  induction lines as [| line rest IH]; intros line_num count n Hn.
  - cbn. now destruct (n - line_num).
  - cbn [lines_output]. unfold line_output.
    rewrite !event_positions_app, event_positions_line_warning, app_nil_r.
    rewrite filter_app, length_app.
    rewrite (filter_same_line n line_num)
      by apply event_positions_char_events.
    rewrite event_positions_length, event_totals_char_events, length_seq.
    destruct (Nat.eqb_spec line_num n) as [-> | Hne].
    + rewrite Nat.sub_diag. cbn [nth].
      assert (Z : filter (fun lp => fst lp =? n)
                         (event_positions
                            (lines_output (S n) (count + count_backticks line) rest))
                  = []).
      { apply filter_none. intros [l p] Hin.
        apply In_event_positions in Hin. destruct Hin as [t Ht].
        apply lines_output_sound in Ht. cbn [fst].
        apply Nat.eqb_neq. lia. }
      rewrite Z. cbn [List.length]. lia.
    + rewrite IH by lia.
      replace (n - line_num) with (S (n - S line_num)) by lia.
      reflexivity.
Qed.

(** X12. Each line gets as many events as it holds backticks, and a line
    number outside the file gets none. *)
Theorem events_per_line
        (fs : filesystem) (filename : path) (lines : list str) (n : nat) :
  open_readlines fs filename = inr lines ->
  1 <= n ->
  events_on_line (output (find_unclosed_backtick fs filename)) n
  = count_backticks (nth (n - 1) lines []).
Proof.
  intros Hread Hn. rewrite (output_of_lines fs filename lines Hread).
  cbn [output].
  rewrite <- (events_on_line_lines_output lines 1 0 n Hn).
  unfold events_on_line. rewrite event_positions_app.
  assert (S0 : event_positions (summary_output (total_backticks lines)) = [])
    by (unfold summary_output; now destruct (_ =? 1)).
  now rewrite S0, app_nil_r.
Qed.

Lemma events_per_line_witness :
  open_readlines (single_file two_lines) target
  = inr [[96; 97; 10]; [98; 96]]%N
  /\ 1 <= 2
  /\ events_on_line (output (find_unclosed_backtick (single_file two_lines) target)) 2
     = count_backticks (nth (2 - 1) [[96; 97; 10]; [98; 96]]%N []).
Proof.
  split; [reflexivity |]. split; [lia |].
  apply (events_per_line (single_file two_lines) target
           [[96; 97; 10]; [98; 96]]%N 2); [reflexivity | lia].
Defined.

End PerLine.
